(** * TMDB movie ETL: a shallow embedding of [tmdb_etl_lambda.py]

    The pipeline is: [fetch_movies] (paginated listing, first-occurrence
    dedup) -> [enrich_movie_data_parallel] (detail fetch and join) ->
    [calculate_statistics] / [clean_transform_data] (imputation and derived
    fields) -> [upload_to_s3], all driven by [lambda_handler].

    Modelling choices.
    - A Python dict with string keys is a [gmap string value]; equality of
      dicts is equality of maps (key order plays no role in Python's [==]).
    - Python values are the inductive [value]; a Python [float] is a
      primitive binary64 [float], a Python [int] is a [Z].
    - Exceptions are carried by the error monad [result].
    - The outside world (HTTP responses, the clock, the object store, the
      CSV serialiser, [str()] and [float(str)]) enters through parameters.
    - Movie identifiers are Python ints (the API's identifiers); the model
      raises [TypeError] on an identifier of another type.
    - Of the library, [sorted] and [statistics.median] are modelled for
      NaN-free data and [datetime.strptime] for ASCII strings; what is
      proved of the median and of the parsed year carries [not_nan] and
      [ascii_date] as hypotheses. *)

From Stdlib Require Import ZArith Floats Ascii String.
From stdpp Require Import gmap strings list sorting.

Local Open Scope Z_scope.

(** ** Python values and exceptions *)

#[local] Set Warnings "-register-all".

Inductive value : Type :=
  | VNone
  | VBool (b : bool)
  | VInt (z : Z)
  | VFloat (f : float)
  | VStr (s : string)
  | VList (l : list value)
  | VDict (d : list (string * value)).

Inductive exn : Type :=
  | KeyError (k : string)
  | TypeError
  | ValueError
  | AttributeError
  | OverflowError
  | ZeroDivisionError
  | HTTPFailure (code : Z)
  | Failure (msg : string).

Inductive result (A : Type) : Type :=
  | Ok (a : A)
  | Raise (e : exn).
Arguments Ok {A} a.
Arguments Raise {A} e.

Definition rbind {A B : Type} (m : result A) (k : A -> result B) : result B :=
  match m with
  | Ok a => k a
  | Raise e => Raise e
  end.

Notation "x <- m ;; k" := (rbind m (fun x => k))
  (at level 100, m at level 50, right associativity).

Fixpoint mapM {A B : Type} (f : A -> result B) (l : list A) : result (list B) :=
  match l with
  | [] => Ok []
  | x :: l' => y <- f x ;; ys <- mapM f l' ;; Ok (y :: ys)
  end.

(** A record (listing, detail, enriched or cleaned) is a Python dict. *)
Abbreviation record := (gmap string value).

(** [d[k]] on a dict. *)
Definition getitem (k : string) (m : record) : result value :=
  match m !! k with
  | Some v => Ok v
  | None => Raise (KeyError k)
  end.

(** [d.get(k, dflt)] on a dict. *)
Definition dict_get (k : string) (dflt : value) (m : record) : value :=
  default dflt (m !! k).

(** [d.setdefault(k, dflt)]: inserts only when the key is absent. *)
Definition setdefault (k : string) (dflt : value) (m : record) : record :=
  match m !! k with
  | Some _ => m
  | None => <[k := dflt]> m
  end.

(** Python truthiness, [bool(v)]. *)
Definition truthy (v : value) : bool :=
  match v with
  | VNone => false
  | VBool b => b
  | VInt z => negb (z =? 0)
  | VFloat f => negb (PrimFloat.eqb f 0%float)
  | VStr s => negb (String.eqb s "")
  | VList l => match l with [] => false | _ => true end
  | VDict d => match d with [] => false | _ => true end
  end.

Definition is_none (v : value) : bool :=
  match v with VNone => true | _ => false end.

(** ** Numbers: Python's int/float arithmetic on binary64 *)

Definition is_inf (f : float) : bool :=
  PrimFloat.eqb (PrimFloat.abs f) infinity.

(** [float(z)] for an int: round to nearest even, [OverflowError] beyond the
    binary64 range. *)
Definition float_of_int (z : Z) : result float :=
  let f := SF2Prim (binary_normalize prec emax z 0 false) in
  if is_inf f then Raise OverflowError else Ok f.

(** The correctly rounded quotient of two ints, [a / b] with [b <> 0]. *)
Definition round_ratio (a b : Z) : float :=
  match a with
  | Z0 => if b <? 0 then (-0)%float else 0%float
  | _ =>
      SF2Prim (SFdiv prec emax
                 (S754_finite (a <? 0) (Z.to_pos (Z.abs a)) 0)
                 (S754_finite (b <? 0) (Z.to_pos (Z.abs b)) 0))
  end.

(** [a / b] on ints (true division). *)
Definition int_truediv (a b : Z) : result float :=
  if b =? 0 then Raise ZeroDivisionError
  else
    let f := round_ratio a b in
    if is_inf f then Raise OverflowError else Ok f.

(** The two numeric kinds an arithmetic operand can have; [bool] is a
    subclass of [int]. *)
Inductive num : Type :=
  | NInt (z : Z)
  | NFloat (f : float).

Definition as_num (v : value) : result num :=
  match v with
  | VBool b => Ok (NInt (Z.b2z b))
  | VInt z => Ok (NInt z)
  | VFloat f => Ok (NFloat f)
  | _ => Raise TypeError
  end.

Definition num_to_float (n : num) : result float :=
  match n with
  | NInt z => float_of_int z
  | NFloat f => Ok f
  end.

(** [a - b]. *)
Definition py_sub (a b : value) : result value :=
  x <- as_num a ;;
  y <- as_num b ;;
  match x, y with
  | NInt p, NInt q => Ok (VInt (p - q))
  | _, _ =>
      f <- num_to_float x ;;
      g <- num_to_float y ;;
      Ok (VFloat (f - g)%float)
  end.

(** [a / b]. *)
Definition py_truediv (a b : value) : result value :=
  x <- as_num a ;;
  y <- as_num b ;;
  match x, y with
  | NInt p, NInt q => f <- int_truediv p q ;; Ok (VFloat f)
  | _, _ =>
      f <- num_to_float x ;;
      g <- num_to_float y ;;
      if PrimFloat.eqb g 0%float then Raise ZeroDivisionError
      else Ok (VFloat (f / g)%float)
  end.

(** Comparison with a small int literal [k] ([0], [100], [500] in the
    source): an int is compared exactly and a float against the literal's
    exact binary64 image. *)
Definition small_float (k : Z) : float :=
  SF2Prim (binary_normalize prec emax k 0 false).

(** [v < k]. *)
Definition py_lt (v : value) (k : Z) : result bool :=
  x <- as_num v ;;
  match x with
  | NInt z => Ok (z <? k)
  | NFloat f => Ok (PrimFloat.ltb f (small_float k))
  end.

(** [v > k]. *)
Definition py_gt (v : value) (k : Z) : result bool :=
  x <- as_num v ;;
  match x with
  | NInt z => Ok (k <? z)
  | NFloat f => Ok (PrimFloat.ltb (small_float k) f)
  end.


(** [v == k]; never raises: a non-number differs from every int. *)
Definition py_eq (v : value) (k : Z) : bool :=
  match v with
  | VBool b => Z.b2z b =? k
  | VInt z => z =? k
  | VFloat f => PrimFloat.eqb f (small_float k)
  | _ => false
  end.

(** ** [statistics.median] and [statistics.mean] on floats *)

(** [sorted(data)]: a stable sort that, like Python's, only asks [<].  On
    NaN-free data [<] orders the floats and the stable ascending
    rearrangement is unique, so this is the list Python returns.  With a NaN
    in the data [<] is no order and Python's result depends on the sequence
    of comparisons of its sorting algorithm, which is not modelled: there
    [sorted], and [median] below, say nothing about the library, and what is
    proved of the median is stated for NaN-free data. *)
Fixpoint insert_sorted (x : float) (l : list float) : list float :=
  match l with
  | [] => [x]
  | y :: l' => if PrimFloat.ltb y x then y :: insert_sorted x l' else x :: y :: l'
  end.

Definition sorted (l : list float) : list float :=
  foldr insert_sorted [] l.

(** [statistics.median]: the middle element of [sorted(data)], or the
    average of the two middle elements.  Called on non-empty data only. *)
Definition median (data : list float) : float :=
  let s := sorted data in
  let n := length s in
  if Nat.odd n then nth (n / 2)%nat s nan
  else
    let i := (n / 2)%nat in
    ((nth (i - 1)%nat s nan + nth i s nan) / 2)%float.

(** A finite float as an exact multiple of [2^-1074]. *)
Definition exact_units (f : float) : option Z :=
  match Prim2SF f with
  | S754_zero _ => Some 0
  | S754_finite s m e => Some (cond_Zopp s (Z.pos m * 2 ^ (e + 1074)))
  | _ => None
  end.

Definition is_finite (f : float) : bool :=
  match exact_units f with Some _ => true | None => false end.

(** [statistics.mean]: the exact rational sum divided by the count, rounded
    once; if an infinity or a NaN occurs, the float sum of those entries
    divided by the count.  Called on non-empty data only. *)
Definition mean (data : list float) : float :=
  let n := Z.of_nat (length data) in
  match List.filter (fun f => negb (is_finite f)) data with
  | [] =>
      let total := foldr (fun f acc => default 0 (exact_units f) + acc) 0 data in
      round_ratio total (n * 2 ^ 1074)
  | special =>
      (foldl PrimFloat.add 0%float special / small_float n)%float
  end.

(** ** [datetime.strptime(s, '%Y-%m-%d')]

    [strptime] matches the regular expression
    [(\d\d\d\d)-(1[0-2]|0[1-9]|[1-9])-(3[0-1]|[1-2]\d|0[1-9]|[1-9]| [1-9])]
    against a prefix of the input, rejects unconverted trailing data, and
    then builds the date, which rejects year 0 and a day the month does not
    have.  Strings are byte strings here, and a digit is an ASCII digit:
    on ASCII strings this is the library's parser.  Python's [\d] also
    accepts the other decimal digits of Unicode, which byte strings do not
    tell apart, so what is proved of the parsed year is stated for ASCII
    release dates ([ascii_date] below). *)

Definition digit (c : ascii) : option Z :=
  let n := Z.of_N (N_of_ascii c) in
  if (48 <=? n) && (n <=? 57) then Some (n - 48) else None.

Definition digit_in (lo hi : Z) (c : ascii) : option Z :=
  match digit c with
  | Some d => if (lo <=? d) && (d <=? hi) then Some d else None
  | None => None
  end.

(** One alternative of a group: the number it reads and the rest. *)
Definition two_digits (lo1 hi1 lo2 hi2 : Z) (s : string) : option (Z * string) :=
  match s with
  | String a (String b r) =>
      match digit_in lo1 hi1 a, digit_in lo2 hi2 b with
      | Some x, Some y => Some (10 * x + y, r)
      | _, _ => None
      end
  | _ => None
  end.

Definition one_digit (lo hi : Z) (s : string) : option (Z * string) :=
  match s with
  | String a r => match digit_in lo hi a with Some x => Some (x, r) | None => None end
  | _ => None
  end.

Definition space_digit (s : string) : option (Z * string) :=
  match s with
  | String a r => if Ascii.eqb a " " then one_digit 1 9 r else None
  | _ => None
  end.

Definition month_alternatives : list (string -> option (Z * string)) :=
  [two_digits 1 1 0 2; two_digits 0 0 1 9; one_digit 1 9].

Definition day_alternatives : list (string -> option (Z * string)) :=
  [two_digits 3 3 0 1; two_digits 1 2 0 9; two_digits 0 0 1 9; one_digit 1 9;
   space_digit].

(** Backtracking over the alternatives of a group: the first alternative
    after which the continuation [k] also matches. *)
Fixpoint first_alternative {R : Type} (alts : list (string -> option (Z * string)))
    (k : Z -> string -> option R) (s : string) : option R :=
  match alts with
  | [] => None
  | alt :: alts' =>
      match alt s with
      | Some (v, r) =>
          match k v r with
          | Some res => Some res
          | None => first_alternative alts' k s
          end
      | None => first_alternative alts' k s
      end
  end.

Definition expect_dash {R : Type} (k : string -> option R) (s : string) : option R :=
  match s with
  | String c r => if Ascii.eqb c "-" then k r else None
  | _ => None
  end.

Definition four_digits (s : string) : option (Z * string) :=
  match s with
  | String a (String b (String c (String d r))) =>
      match digit a, digit b, digit c, digit d with
      | Some w, Some x, Some y, Some z => Some (1000 * w + 100 * x + 10 * y + z, r)
      | _, _, _, _ => None
      end
  | _ => None
  end.

(** The regular expression's match: year, month, day and the unmatched rest. *)
Definition match_ymd (s : string) : option (Z * Z * Z * string) :=
  match four_digits s with
  | Some (y, r) =>
      expect_dash
        (first_alternative month_alternatives
           (fun m => expect_dash
              (first_alternative day_alternatives (fun d r' => Some (y, m, d, r')))))
        r
  | None => None
  end.

Definition is_leap (y : Z) : bool :=
  (y mod 4 =? 0) && (negb (y mod 100 =? 0) || (y mod 400 =? 0)).

Definition days_in_month (y m : Z) : Z :=
  if m =? 2 then (if is_leap y then 29 else 28)
  else if (m =? 4) || (m =? 6) || (m =? 9) || (m =? 11) then 30
  else 31.

(** [datetime.strptime(s, '%Y-%m-%d')]: the date, or [None] where Python
    raises [ValueError]. *)
Definition strptime (s : string) : option (Z * Z * Z) :=
  match match_ymd s with
  | Some (y, m, d, rest) =>
      if String.eqb rest "" && (1 <=? y) && (d <=? days_in_month y m)
      then Some (y, m, d) else None
  | None => None
  end.

(** The module constants of lines 20-21, without an environment override. *)
Definition default_bucket_name : string := "2025tmdbmoviedata".
Definition default_file_name : string := "movies_data_enriched.csv".

(** ** Field names *)

Definition numerical_features : list string :=
  ["vote_average"; "vote_count"; "popularity"; "runtime"; "budget"; "revenue"]%string.

(** [feature in ['budget', 'revenue', 'vote_count']] *)
Definition uses_median (feature : string) : bool :=
  bool_decide (feature ∈ ["budget"; "revenue"; "vote_count"]%string).

Section Pipeline.

(** [float(s)] on a string: Python's numeric-literal parser, [None] when it
    raises [ValueError]. *)
Variable float_of_str : string -> option float.

(** [str(v)], used by the f-strings and by [str(movie.get('adult', False))]. *)
Variable py_str : value -> string.

(** [float(v)]. *)
Definition py_float (v : value) : result float :=
  match v with
  | VBool b => Ok (if b then 1%float else 0%float)
  | VInt z => float_of_int z
  | VFloat f => Ok f
  | VStr s => match float_of_str s with Some f => Ok f | None => Raise ValueError end
  | _ => Raise TypeError
  end.

(** *** calculate_statistics (lines 171-200) *)

(** One step of the inner collection loop: append [float(movie[feature])]
    when the feature is present and not [None]. *)
Definition collect_feature (movie : record) (values : gmap string (list float))
    (feature : string) : result (gmap string (list float)) :=
  match movie !! feature with
  | Some v =>
      if is_none v then Ok values
      else
        f <- py_float v ;;
        Ok (<[feature := default [] (values !! feature) ++ [f]]> values)
  | None => Ok values
  end.

Fixpoint foldM {A S : Type} (step : S -> A -> result S) (l : list A) (s : S)
    : result S :=
  match l with
  | [] => Ok s
  | x :: l' => s' <- step s x ;; foldM step l' s'
  end.

Definition collect_movie (values : gmap string (list float)) (movie : record)
    : result (gmap string (list float)) :=
  foldM (collect_feature movie) numerical_features values.

(** [values = {feature: [] for feature in numerical_features}] *)
Definition empty_values : gmap string (list float) :=
  list_to_map ((fun f => (f, [])) <$> numerical_features).

Definition collect_values (movies_list : list record)
    : result (gmap string (list float)) :=
  foldM collect_movie movies_list empty_values.

(** The statistic of one feature from its collected values. *)
Definition feature_stat (feature : string) (vals : list float) : value :=
  match vals with
  | [] => VInt 0
  | _ => if uses_median feature then VFloat (median vals) else VFloat (mean vals)
  end.

Definition calculate_statistics (movies_list : list record) : result record :=
  values <- collect_values movies_list ;;
  Ok (foldl (fun stats feature =>
               <[feature := feature_stat feature (default [] (values !! feature))]> stats)
            ∅ numerical_features).

(** *** Deduplication by identifier

    The loops of lines 135-139 and 264-267: keep the first record of each
    identifier, in order.  [movie["movie_id"]] raises [KeyError] when the
    key is missing. *)

Definition movie_id_of (movie : record) : result Z :=
  v <- getitem "movie_id" movie ;;
  match v with
  | VInt z => Ok z
  | _ => Raise TypeError
  end.

Fixpoint unique_from (seen : gset Z) (movies : list record) : result (list record) :=
  match movies with
  | [] => Ok []
  | movie :: rest =>
      movie_id <- movie_id_of movie ;;
      if decide (movie_id ∈ seen) then unique_from seen rest
      else
        kept <- unique_from ({[movie_id]} ∪ seen) rest ;;
        Ok (movie :: kept)
  end.

Definition unique_by_id (movies : list record) : result (list record) :=
  unique_from ∅ movies.

(** *** clean_transform_data (lines 202-273) *)

(** [movie[f] = movie.get(f) if movie.get(f) is not None else stats[f]] *)
Definition impute (stats : record) (movie : record) (feature : string)
    : result record :=
  let v := dict_get feature VNone movie in
  if is_none v then
    s <- getitem feature stats ;;
    Ok (<[feature := s]> movie)
  else Ok (<[feature := v]> movie).

(** Lines 222-229. *)
Definition fill_defaults (movie : record) : record :=
  let movie := setdefault "overview" (VStr "No overview available") movie in
  let movie := setdefault "tagline" (VStr "") movie in
  let movie := setdefault "genres" (VStr "Unknown") movie in
  let movie := setdefault "production_companies" (VStr "Unknown") movie in
  let movie := setdefault "spoken_languages" (VStr "Unknown") movie in
  let movie := setdefault "original_language" (VStr "Unknown") movie in
  setdefault "keywords" (VStr "") movie.

(** Lines 231-240.  [strptime] on a non-string raises [TypeError], which is
    caught like [ValueError]. *)
Definition release_year (movie : record) : value :=
  match movie !! "release_date" with
  | Some d =>
      if truthy d then
        match d with
        | VStr s =>
            match strptime s with
            | Some (y, _, _) => VInt y
            | None => VNone
            end
        | _ => VNone
        end
      else VNone
  | None => VNone
  end.

(** Lines 245-250. *)
Definition roi_of (movie : record) : result value :=
  budget <- getitem "budget" movie ;;
  positive <- py_gt budget 0 ;;
  if positive then
    revenue <- getitem "revenue" movie ;;
    budget <- getitem "budget" movie ;;
    gain <- py_sub revenue budget ;;
    budget <- getitem "budget" movie ;;
    py_truediv gain budget
  else
    revenue <- getitem "revenue" movie ;;
    Ok (if py_eq revenue 0 then VInt 0 else VFloat infinity).

(** Lines 252-258. *)
Definition popularity_category (movie : record) : result value :=
  popularity <- getitem "popularity" movie ;;
  low <- py_lt popularity 100 ;;
  if low then Ok (VStr "Low")
  else
    popularity <- getitem "popularity" movie ;;
    medium <- py_lt popularity 500 ;;
    Ok (VStr (if medium then "Medium" else "High")).

(** The body of the loop of lines 213-260. *)
Definition clean_movie (stats : record) (movie : record) : result record :=
  movie <- foldM (impute stats) numerical_features movie ;;
  let movie := fill_defaults movie in
  let movie := <["release_year" := release_year movie]> movie in
  revenue <- getitem "revenue" movie ;;
  budget <- getitem "budget" movie ;;
  profit <- py_sub revenue budget ;;
  let movie := <["profit" := profit]> movie in
  roi <- roi_of movie ;;
  let movie := <["roi" := roi]> movie in
  category <- popularity_category movie ;;
  Ok (<["popularity_category" := category]> movie).

Definition clean_transform_data (movies_list : list record) : result (list record) :=
  match movies_list with
  | [] => Ok []
  | _ =>
      stats <- calculate_statistics movies_list ;;
      cleaned_movies <- mapM (clean_movie stats) movies_list ;;
      unique_by_id cleaned_movies
  end.

(** *** JSON accessors

    A decoded JSON object is a [VDict]; [.get] exists on dicts only
    ([AttributeError] otherwise), subscripting by a string works on dicts
    only ([TypeError] otherwise, [KeyError] for a missing key). *)

Fixpoint assoc (k : string) (d : list (string * value)) : option value :=
  match d with
  | [] => None
  | (k', v) :: d' => if String.eqb k k' then Some v else assoc k d'
  end.

Definition json_get (k : string) (dflt : value) (v : value) : result value :=
  match v with
  | VDict d => Ok (default dflt (assoc k d))
  | _ => Raise AttributeError
  end.

Definition json_getitem (k : string) (v : value) : result value :=
  match v with
  | VDict d =>
      match assoc k d with
      | Some x => Ok x
      | None => Raise (KeyError k)
      end
  | _ => Raise TypeError
  end.

Fixpoint chars (s : string) : list value :=
  match s with
  | EmptyString => []
  | String c r => VStr (String c EmptyString) :: chars r
  end.

(** [for x in v]: the elements of a list, the characters of a string, the
    keys of a dict; [TypeError] on anything else. *)
Definition iter_values (v : value) : result (list value) :=
  match v with
  | VList l => Ok l
  | VStr s => Ok (chars s)
  | VDict d => Ok ((fun kv => VStr kv.1) <$> d)
  | _ => Raise TypeError
  end.

Definition as_str (v : value) : result string :=
  match v with
  | VStr s => Ok s
  | _ => Raise TypeError
  end.

Fixpoint join_comma (l : list string) : string :=
  match l with
  | [] => ""
  | [x] => x
  | x :: l' => x +:+ ", " +:+ join_comma l'
  end.

(** [', '.join([g['name'] for g in v])] *)
Definition join_names (v : value) : result string :=
  items <- iter_values v ;;
  names <- mapM (json_getitem "name") items ;;
  strs <- mapM as_str names ;;
  Ok (join_comma strs).

(** *** fetch_movies (lines 57-100) *)

(** [make_api_request] on the listing URL of a page: the decoded JSON, or
    the exception it ends with. *)
Variable api_page : Z -> result value.

(** Lines 78-87. *)
Definition movie_element (movie : value) (movie_id : Z) : result record :=
  title <- json_getitem "title" movie ;;
  release_date <- json_get "release_date" (VStr "") movie ;;
  vote_average <- json_get "vote_average" VNone movie ;;
  vote_count <- json_get "vote_count" VNone movie ;;
  popularity <- json_get "popularity" VNone movie ;;
  overview <- json_get "overview" (VStr "No overview available") movie ;;
  poster <- json_get "poster_path" VNone movie ;;
  poster_url <-
    (if truthy poster then
       path <- json_getitem "poster_path" movie ;;
       Ok (VStr ("<https://image.tmdb.org/t/p/w500" +:+ py_str path +:+ ">"))
     else Ok VNone) ;;
  Ok (<["poster_url" := poster_url]>
      (<["overview" := overview]>
      (<["popularity" := popularity]>
      (<["vote_count" := vote_count]>
      (<["vote_average" := vote_average]>
      (<["release_date" := release_date]>
      (<["title" := title]>
      (<["movie_id" := VInt movie_id]> ∅)))))))).

Definition as_id (v : value) : result Z :=
  match v with
  | VInt z => Ok z
  | _ => Raise TypeError
  end.

(** The state of the extraction loop: [movies_list] and [movie_ids_seen]. *)
Record fetch_state : Type := {
  movies_list : list record;
  movie_ids_seen : gset Z
}.

(** The inner loop over one page's results (lines 68-88).  An exception
    leaves what was appended so far in place: the state comes back together
    with the exception, if any. *)
Fixpoint scan_results (results : list value) (st : fetch_state)
    : fetch_state * option exn :=
  match results with
  | [] => (st, None)
  | movie :: rest =>
      match (v <- json_getitem "id" movie ;; as_id v) with
      | Raise e => (st, Some e)
      | Ok movie_id =>
          if decide (movie_id ∈ movie_ids_seen st) then scan_results rest st
          else
            let seen := {[movie_id]} ∪ movie_ids_seen st in
            match movie_element movie movie_id with
            | Raise e =>
                ({| movies_list := movies_list st; movie_ids_seen := seen |}, Some e)
            | Ok element =>
                scan_results rest
                  {| movies_list := movies_list st ++ [element];
                     movie_ids_seen := seen |}
            end
      end
  end.

(** The loop over pages [page], [page + 1], ... ([todo] of them): the first
    page's failure is raised, a later page's failure ends the loop. *)
Fixpoint fetch_pages (todo : nat) (page : Z) (st : fetch_state)
    : result (list record) :=
  match todo with
  | O => Ok (movies_list st)
  | S todo' =>
      match (data <- api_page page ;;
             results <- json_get "results" (VList []) data ;;
             iter_values results) with
      | Raise e => if page =? 1 then Raise e else Ok (movies_list st)
      | Ok results =>
          match scan_results results st with
          | (st', Some e) => if page =? 1 then Raise e else Ok (movies_list st')
          | (st', None) => fetch_pages todo' (page + 1) st'
          end
      end
  end.

Definition fetch_movies (max_pages : Z) : result (list record) :=
  fetch_pages (Z.to_nat max_pages) 1 {| movies_list := []; movie_ids_seen := ∅ |}.

(** *** fetch_movie_details (lines 102-127) *)

(** [make_api_request] on the detail URL of a movie. *)
Variable api_detail : Z -> result value.

Definition detail_record (movie_id : Z) (movie : value) : result record :=
  budget <- json_get "budget" VNone movie ;;
  revenue <- json_get "revenue" VNone movie ;;
  runtime <- json_get "runtime" VNone movie ;;
  status <- json_get "status" (VStr "") movie ;;
  tagline <- json_get "tagline" (VStr "") movie ;;
  genres <- (g <- json_get "genres" (VList []) movie ;; join_names g) ;;
  production_companies <-
    (c <- json_get "production_companies" (VList []) movie ;; join_names c) ;;
  spoken_languages <-
    (l <- json_get "spoken_languages" (VList []) movie ;; join_names l) ;;
  original_language <- json_get "original_language" (VStr "") movie ;;
  adult <- json_get "adult" (VBool false) movie ;;
  homepage <- json_get "homepage" (VStr "") movie ;;
  imdb_id <- json_get "imdb_id" (VStr "") movie ;;
  keywords <-
    (k <- json_get "keywords" (VDict []) movie ;;
     k' <- json_get "keywords" (VList []) k ;;
     join_names k') ;;
  Ok (<["keywords" := VStr keywords]>
      (<["imdb_id" := imdb_id]>
      (<["homepage" := homepage]>
      (<["adult" := VStr (py_str adult)]>
      (<["original_language" := original_language]>
      (<["spoken_languages" := VStr spoken_languages]>
      (<["production_companies" := VStr production_companies]>
      (<["genres" := VStr genres]>
      (<["tagline" := tagline]>
      (<["status" := status]>
      (<["runtime" := runtime]>
      (<["revenue" := revenue]>
      (<["budget" := budget]>
      (<["movie_id" := VInt movie_id]> ∅)))))))))))))).

(** Any exception of the request or of the construction is caught and
    answered with the stub [{'movie_id': movie_id}]. *)
Definition fetch_movie_details (movie_id : Z) : record :=
  match (movie <- api_detail movie_id ;; detail_record movie_id movie) with
  | Ok detail => detail
  | Raise _ => {["movie_id" := VInt movie_id]}
  end.

(** *** enrich_movie_data_parallel (lines 129-169) *)

(** [l[:k]] *)
Definition slice_to {A : Type} (k : Z) (l : list A) : list A :=
  if 0 <=? k then take (Z.to_nat k) l
  else take (length l - Z.to_nat (- k))%nat l.

(** [unique_movies[:max_details] if max_details else unique_movies] *)
Definition movies_to_process (max_details : option Z) (unique_movies : list record)
    : list record :=
  match max_details with
  | Some k => if k =? 0 then unique_movies else slice_to k unique_movies
  | None => unique_movies
  end.

(** [{detail['movie_id']: detail for detail in details_list if detail}] *)
Definition details_by_id (details_list : list record) : result (gmap Z record) :=
  foldM (fun (acc : gmap Z record) (detail : record) =>
           if decide (detail = ∅) then Ok acc
           else
             movie_id <- movie_id_of detail ;;
             Ok (<[movie_id := detail]> acc))
        details_list ∅.

(** Lines 157-167: [{**movie, **details}] keeps every key of both dicts and
    takes the value of [details] where both have the key. *)
Definition join_movie (details_dict : gmap Z record) (movie : record)
    : result record :=
  movie_id <- movie_id_of movie ;;
  match details_dict !! movie_id with
  | Some detail =>
      let details := delete "movie_id" detail in
      Ok (details ∪ movie)
  | None => Ok movie
  end.

(** [ThreadPoolExecutor(max_workers)] raises [ValueError] unless
    [max_workers > 0]; [executor.map] returns the results in the order of
    its inputs. *)
Definition enrich_movie_data_parallel (movies : list record)
    (max_details : option Z) (max_workers : Z) : result (list record) :=
  unique_movies <- unique_by_id movies ;;
  let to_process := movies_to_process max_details unique_movies in
  movie_ids <- mapM movie_id_of to_process ;;
  if max_workers <=? 0 then Raise ValueError
  else
    let details_list := fetch_movie_details <$> movie_ids in
    details_dict <- details_by_id details_list ;;
    mapM (join_movie details_dict) to_process.

(** *** upload_to_s3 and lambda_handler (lines 275-341) *)

Record config : Type := {
  S3_BUCKET_NAME : string;
  S3_FILE_NAME : string;
  MAX_PAGES : Z;
  MAX_DETAILS : Z;
  MAX_WORKERS : Z
}.

(** One [put_object] call. *)
Record put_request : Type := {
  Bucket : string;
  Key : string;
  Body : string
}.

Variable cfg : config.

(** [datetime.now().strftime("%Y-%m-%d")] *)
Variable date_suffix : string.

(** The text [csv.DictWriter] writes for the records (or the placeholder row
    for no record). *)
Variable csv_text : list record -> string.

(** [s3.put_object]: returns, or raises. *)
Variable put_object : put_request -> result unit.

Definition file_key : string :=
  "daily_outputs/movies_data_" +:+ date_suffix +:+ ".csv".

(** Returns the request it performed. *)
Definition upload_to_s3 (movies_data : list record) : result put_request :=
  let request :=
    {| Bucket := S3_BUCKET_NAME cfg; Key := file_key; Body := csv_text movies_data |} in
  _ <- put_object request ;;
  Ok request.

(** The body of the response, before [json.dumps]. *)
Inductive response_body : Type :=
  | Success (movies_processed : nat) (destination : string)
  | Failed (error : exn).

Record response : Type := {
  statusCode : Z;
  body : response_body
}.

Definition destination_of : string :=
  "s3://" +:+ S3_BUCKET_NAME cfg +:+ "/" +:+ S3_FILE_NAME cfg.

(** The [try] block of [lambda_handler]: the cleaned records and the object
    written. *)
Definition run_pipeline : result (list record * put_request) :=
  listing <- fetch_movies (MAX_PAGES cfg) ;;
  match listing with
  | [] => Raise (Failure "Failed to fetch movies")
  | _ =>
      enriched_movies <-
        enrich_movie_data_parallel listing (Some (MAX_DETAILS cfg)) (MAX_WORKERS cfg) ;;
      cleaned_movies <- clean_transform_data enriched_movies ;;
      written <- upload_to_s3 cleaned_movies ;;
      Ok (cleaned_movies, written)
  end.

(** The response, and the objects written to the store. *)
Definition lambda_handler : response * list put_request :=
  match run_pipeline with
  | Ok (cleaned_movies, written) =>
      ({| statusCode := 200;
          body := Success (length cleaned_movies) destination_of |},
       [written])
  | Raise e => ({| statusCode := 500; body := Failed e |}, [])
  end.

End Pipeline.


(** ** make_api_request (lines 32-55) *)

(** What one call of [urllib.request.urlopen], with the decoding of its
    body, ends with: the decoded JSON, an [HTTPError] with its status code,
    or another exception ([URLError], a decoding error, ...). *)
Inductive attempt_outcome : Type :=
  | Responded (json : value)
  | HTTPError (code : Z)
  | Errored (e : exn).

(** [e.code in [429, 500, 502, 503, 504]] *)
Definition retryable (code : Z) : bool :=
  bool_decide (code ∈ [429; 500; 502; 503; 504]).

(** What a call of [make_api_request] did: how many requests it sent and the
    durations it slept, in order. *)
Record request_trace : Type := {
  requests_sent : nat;
  slept : list float
}.

(** [backoff_factor * (2 ** attempt)], with the int converted to a float. *)
Definition sleep_time (backoff_factor : float) (attempt : nat) : result float :=
  p <- float_of_int (2 ^ Z.of_nat attempt) ;;
  Ok (backoff_factor * p)%float.

Section Requests.

Variable py_str : value -> string.

(** The outcome of the [n]-th request sent to a URL. *)
Variable urlopen : string -> nat -> attempt_outcome.

(** [time.sleep]: returns, or raises. *)
Variable sleep : float -> result unit.

Definition exhausted_message (url : string) (retries : Z) : string :=
  "Failed to fetch data from " +:+ url +:+ " after " +:+ py_str (VInt retries)
  +:+ " attempts".

(** The loop [for attempt in range(retries)], with [todo] iterations left.
    An exception raised inside the [except] block (by the conversion or by
    [time.sleep]) leaves the function. *)
Fixpoint request_loop (url : string) (retries : Z) (backoff_factor : float)
    (todo attempt : nat) (tr : request_trace) : result value * request_trace :=
  match todo with
  | O => (Raise (Failure (exhausted_message url retries)), tr)
  | S todo' =>
      let sent := {| requests_sent := S (requests_sent tr); slept := slept tr |} in
      match urlopen url attempt with
      | Responded json => (Ok json, sent)
      | HTTPError code =>
          if retryable code then
            match (t <- sleep_time backoff_factor attempt ;; _ <- sleep t ;; Ok t) with
            | Ok t =>
                request_loop url retries backoff_factor todo' (S attempt)
                  {| requests_sent := requests_sent sent; slept := slept sent ++ [t] |}
            | Raise e => (Raise e, sent)
            end
          else (Raise (HTTPFailure code), sent)
      | Errored e => (Raise e, sent)
      end
  end.

Definition make_api_request (url : string) (retries : Z) (backoff_factor : float)
    : result value * request_trace :=
  request_loop url retries backoff_factor (Z.to_nat retries) 0
    {| requests_sent := 0; slept := [] |}.

End Requests.

(** ** The listing endpoint over HTTP (lines 24-25, 63, 66) *)

Definition BASE_URL : string := "<https://api.themoviedb.org/3>".

Section ListingOverHTTP.

Variable py_str : value -> string.
Variable urlopen : string -> nat -> attempt_outcome.
Variable sleep : float -> result unit.
Variable API_KEY : string.

(** [f"{BASE_URL}/movie/popular?api_key={API_KEY}&language=en-US&page={page}"] *)
Definition listing_url (page : Z) : string :=
  BASE_URL +:+ "/movie/popular?api_key=" +:+ API_KEY +:+ "&language=en-US&page="
  +:+ py_str (VInt page).

(** [make_api_request(url)] with its default arguments, as [fetch_movies]
    calls it. *)
Definition request_page (page : Z) : result value :=
  (make_api_request py_str urlopen sleep (listing_url page) 3 0.5).1.

End ListingOverHTTP.

(** ** Vocabulary of the properties *)

Definition is_ok {A : Type} (m : result A) : Prop := exists a, m = Ok a.

(** The elements of [l] whose key did not occur before, in the order of [l]. *)
Fixpoint first_by {A : Type} (key : A -> Z) (l : list A) : list A :=
  match l with
  | [] => []
  | x :: l' => x :: filter (fun y => key y <> key x) (first_by key l')
  end.

Definition first_occurrences (ids : list Z) : list Z := first_by id ids.

(** The number of distinct identifiers of a list. *)
Definition distinct_count (ids : list Z) : nat :=
  size (list_to_set ids : gset Z).

Definition has_id (movie : record) : Prop := is_ok (movie_id_of movie).

(** The identifier of a record that has one. *)
Definition id_of (movie : record) : Z :=
  match movie_id_of movie with
  | Ok z => z
  | Raise _ => 0
  end.

(** The values a record contributes to a feature's statistic: its value for
    the feature when present and not [None]. *)
Definition present1 (feature : string) (movie : record) : list value :=
  match movie !! feature with
  | Some v => if is_none v then [] else [v]
  | None => []
  end.

(** All present, non-null values of a feature, in record order. *)
Definition present_values (feature : string) (movies : list record) : list value :=
  movies ≫= present1 feature.

(** The same values coerced to floats. *)
Definition observed (float_of_str : string -> option float) (feature : string)
    (movies : list record) : result (list float) :=
  mapM (py_float float_of_str) (present_values feature movies).

(** A float that is not a NaN. *)
Definition not_nan (f : float) : Prop := PrimFloat.is_nan f = false.

(** [x <= y] on floats. *)
Definition float_le (x y : float) : Prop := PrimFloat.leb x y = true.

(** The value of a numeric feature after imputation: the record's own value
    when it is present and not [None], the statistic otherwise. *)
Definition imputed (stats movie : record) (feature : string) : option value :=
  match movie !! feature with
  | Some v => if is_none v then stats !! feature else Some v
  | None => stats !! feature
  end.

(** The roi computed from a budget and a revenue (lines 246-250). *)
Definition roi_value (budget revenue : value) : result value :=
  positive <- py_gt budget 0 ;;
  if positive then
    gain <- py_sub revenue budget ;;
    py_truediv gain budget
  else Ok (if py_eq revenue 0 then VInt 0 else VFloat infinity).

(** The category computed from a popularity (lines 253-258). *)
Definition category_value (popularity : value) : result value :=
  low <- py_lt popularity 100 ;;
  if low then Ok (VStr "Low")
  else
    medium <- py_lt popularity 500 ;;
    Ok (VStr (if medium then "Medium" else "High")).

(** The release year read off a release date. *)
Definition year_of (release_date : option value) : value :=
  match release_date with
  | Some (VStr s) =>
      match strptime s with
      | Some (y, _, _) => VInt y
      | None => VNone
      end
  | _ => VNone
  end.

(** A string of ASCII characters only. *)
Definition is_ascii (s : string) : bool :=
  forallb (fun c => (N_of_ascii c <? 128)%N) (list_ascii_of_string s).

(** A record whose release date, when it is a string, is an ASCII string. *)
Definition ascii_date (movie : record) : bool :=
  match movie !! "release_date" with
  | Some (VStr s) => is_ascii s
  | _ => true
  end.

(** The keys [fill_defaults] may add. *)
Definition defaulted_keys : list string :=
  ["overview"; "tagline"; "genres"; "production_companies"; "spoken_languages";
   "original_language"; "keywords"]%string.

(** The keys the cleaning derives. *)
Definition derived_keys : list string :=
  ["release_year"; "profit"; "roi"; "popularity_category"]%string.

(** The record built by the loop body from the imputed record [m1]. *)
Definition cleaned_record (m1 : record) (release_date : option value)
    (profit roi category : value) : record :=
  <["popularity_category" := category]>
    (<["roi" := roi]>
       (<["profit" := profit]>
          (<["release_year" := year_of release_date]> (fill_defaults m1)))).

(** A record that went through the loop body: the loop body maps it to
    itself, whatever the statistics. *)
Definition is_cleaned (c : record) : Prop :=
  (forall f, f ∈ numerical_features ->
     exists v, c !! f = Some v /\ is_none v = false) /\
  (forall k, k ∈ defaulted_keys -> is_Some (c !! k)) /\
  c !! "release_year" = Some (year_of (c !! "release_date")) /\
  exists budget revenue popularity profit roi category,
    c !! "budget" = Some budget /\
    c !! "revenue" = Some revenue /\
    c !! "popularity" = Some popularity /\
    py_sub revenue budget = Ok profit /\ c !! "profit" = Some profit /\
    roi_value budget revenue = Ok roi /\ c !! "roi" = Some roi /\
    category_value popularity = Ok category /\
    c !! "popularity_category" = Some category.

(** The identifier of a listing entry of the API: [movie["id"]]. *)
Definition raw_id (movie : value) : result Z :=
  v <- json_getitem "id" movie ;; as_id v.

Definition raw_id_of (movie : value) : Z :=
  match raw_id movie with
  | Ok z => z
  | Raise _ => 0
  end.

(** The entries of a listing page: what the loop of lines 68-88 iterates. *)
Definition page_results (api_page : Z -> result value) (page : Z)
    : result (list value) :=
  data <- api_page page ;;
  results <- json_get "results" (VList []) data ;;
  iter_values results.

(** The keys of a listing record (lines 78-87) and of a detail record
    (lines 109-124). *)
Definition listing_keys : gset string :=
  list_to_set ["poster_url"; "overview"; "popularity"; "vote_count"; "vote_average";
               "release_date"; "title"; "movie_id"]%string.

Definition detail_keys : gset string :=
  list_to_set ["keywords"; "imdb_id"; "homepage"; "adult"; "original_language";
               "spoken_languages"; "production_companies"; "genres"; "tagline";
               "status"; "runtime"; "revenue"; "budget"; "movie_id"]%string.

(** A well-formed listing: the records have the listing keys and an int
    identifier, no identifier occurs twice, and every identifier is among
    the seen ones. *)
Definition listing_ok (l : list record) (seen : gset Z) : Prop :=
  Forall (fun r => dom r = listing_keys /\ has_id r) l /\
  NoDup (id_of <$> l) /\
  (forall k, k ∈ id_of <$> l -> k ∈ seen).

(** The literal defaults of lines 223-229. *)
Definition default_table : list (string * value) :=
  [("overview", VStr "No overview available"); ("tagline", VStr "");
   ("genres", VStr "Unknown"); ("production_companies", VStr "Unknown");
   ("spoken_languages", VStr "Unknown"); ("original_language", VStr "Unknown");
   ("keywords", VStr "")]%string.

(** A value that arithmetic accepts: a bool, an int or a float. *)
Definition is_number (v : value) : Prop := is_ok (as_num v).

Section Vocabulary.

Variable py_str : value -> string.
Variable api_detail : Z -> result value.

(** What the join appends for a listing: the detail found for its
    identifier, without the detail's own identifier, over the listing. *)
Definition merged_with_detail (movie : record) : record :=
  delete "movie_id" (fetch_movie_details py_str api_detail (id_of movie)) ∪ movie.

End Vocabulary.

(** ** Sample inputs *)

(** A [str()] that is right on strings, booleans and [None]. *)
Definition sample_str (v : value) : string :=
  match v with
  | VStr s => s
  | VBool true => "True"
  | VBool false => "False"
  | VNone => "None"
  | _ => ""
  end.

(** A detail endpoint that knows movie 7 only. *)
Definition sample_detail (movie_id : Z) : result value :=
  if movie_id =? 7 then
    Ok (VDict [("budget", VInt 10); ("revenue", VInt 25); ("runtime", VInt 90);
               ("genres", VList [VDict [("name", VStr "Drama")]])])
  else Raise (HTTPFailure 404).

(** A listing record that also carries a [budget]. *)
Definition sample_listing : record :=
  <["budget" := VInt 5]> (<["title" := VStr "Seven"]> {["movie_id" := VInt 7]}).

(** A listing record whose detail request fails. *)
Definition sample_listing_8 : record :=
  <["title" := VStr "Eight"]> {["movie_id" := VInt 8]}.

(** A later listing record with the identifier of [sample_listing] and
    another title, and a listing that repeats the identifier. *)
Definition sample_listing_again : record :=
  <["title" := VStr "Seven again"]> {["movie_id" := VInt 7]}.

Definition sample_repeated : list record :=
  [sample_listing; sample_listing_again; sample_listing_8].

(** A [float(str)] that rejects every string. *)
Definition sample_float_of_str (s : string) : option float := None.

(** Four records with budgets 1, 2, 3, 4 and vote averages 1, 2, 3; no
    record has a runtime. *)
Definition sample_movies : list record :=
  [ <["vote_average" := VInt 1]> (<["budget" := VInt 1]> {["movie_id" := VInt 1]});
    <["vote_average" := VFloat 2]> (<["budget" := VFloat 2]> {["movie_id" := VInt 2]});
    <["vote_average" := VInt 3]> (<["budget" := VInt 3]> {["movie_id" := VInt 3]});
    <["vote_average" := VNone]> (<["budget" := VInt 4]> {["movie_id" := VInt 4]}) ].

(** Five enriched records: a zero budget with a revenue, a positive budget,
    a missing budget with a zero revenue, a zero budget with a zero revenue,
    and a negative revenue; release dates well-formed, empty, absent and
    malformed. *)
Definition sample_enriched_movies : list record :=
  [ <["release_date" := VStr "2020-05-01"]>
      (<["popularity" := VFloat 99.5]>
      (<["budget" := VInt 0]>
      (<["revenue" := VInt 500]> {["movie_id" := VInt 1]})));
    <["release_date" := VStr ""]>
      (<["popularity" := VInt 100]>
      (<["budget" := VInt 100]>
      (<["revenue" := VInt 150]> {["movie_id" := VInt 2]})));
    <["popularity" := VInt 500]>
      (<["budget" := VNone]>
      (<["revenue" := VInt 0]> {["movie_id" := VInt 3]}));
    <["release_date" := VStr "May 2020"]>
      (<["budget" := VInt 0]>
      (<["revenue" := VInt 0]> {["movie_id" := VInt 4]}));
    <["release_date" := VInt 2020]>
      (<["budget" := VInt 40]>
      (<["revenue" := VInt (-3)]> {["movie_id" := VInt 5]})) ].

(** The value of a field of the [i]-th record of a result. *)
Definition field_of (r : result (list record)) (i : nat) (key : string)
    : option value :=
  match r with
  | Ok l => l !! i ≫= (fun m => m !! key)
  | Raise _ => None
  end.

(** A listing entry of the API. *)
Definition sample_entry (movie_id : Z) (title : string) : value :=
  VDict [("id", VInt movie_id); ("title", VStr title);
         ("release_date", VStr "2020-05-01"); ("popularity", VFloat 12.5)].

(** Two listing pages with a repeated identifier inside the first page and
    one across the pages. *)
Definition sample_pages : list (list value) :=
  [ [sample_entry 7 "Seven"; sample_entry 8 "Eight"; sample_entry 7 "Seven again"];
    [sample_entry 8 "Eight again"; sample_entry 9 "Nine"] ].

(** A listing endpoint that serves [sample_pages] and fails on page 3. *)
Definition sample_page (page : Z) : result value :=
  match sample_pages !! Z.to_nat (page - 1) with
  | Some results => if 1 <=? page then Ok (VDict [("results", VList results)])
                    else Raise (HTTPFailure 404)
  | None => Raise (HTTPFailure 500)
  end.

Definition sample_config : config :=
  {| S3_BUCKET_NAME := default_bucket_name;
     S3_FILE_NAME := default_file_name;
     MAX_PAGES := 5;
     MAX_DETAILS := 50;
     MAX_WORKERS := 5 |}.

(** A serialiser and an object store that always succeed. *)
Definition sample_csv (movies : list record) : string := "movie_id,title".
Definition sample_put (request : put_request) : result unit := Ok tt.

(** The handler on the sample world, on 3 November 2026. *)
Definition sample_run : response * list put_request :=
  lambda_handler sample_float_of_str sample_str sample_page sample_detail
    sample_config "2026-11-03" sample_csv sample_put.

(** The same run with [S3_FILE_NAME] set to that day's dated key. *)
Definition sample_config_dated : config :=
  {| S3_BUCKET_NAME := default_bucket_name;
     S3_FILE_NAME := "daily_outputs/movies_data_2026-11-03.csv";
     MAX_PAGES := 5;
     MAX_DETAILS := 50;
     MAX_WORKERS := 5 |}.

Definition sample_run_dated : response * list put_request :=
  lambda_handler sample_float_of_str sample_str sample_page sample_detail
    sample_config_dated "2026-11-03" sample_csv sample_put.

(** The enrichment of [sample_listing] and of [sample_listing_8]. *)
Definition sample_enriched : record :=
  merged_with_detail sample_str sample_detail sample_listing.

(** A server that answers 503 twice and then responds, and a [time.sleep]
    that returns. *)
Definition sample_urlopen (url : string) (n : nat) : attempt_outcome :=
  if (n <? 2)%nat then HTTPError 503 else Responded (VDict [("results", VList [])]).

(** A server that is always overloaded. *)
Definition sample_overloaded (url : string) (n : nat) : attempt_outcome :=
  HTTPError 429.

Definition sample_sleep (t : float) : result unit := Ok tt.

(** * Properties *)

#[local] Set Warnings "-clear-no-such-hyp".

(** ** The error monad *)

Lemma rbind_ok {A B : Type} (m : result A) (k : A -> result B) (b : B) :
  rbind m k = Ok b <-> exists a, m = Ok a /\ k a = Ok b.
Proof.
  destruct m as [a|e]; simpl; split.
  - intros H. exists a. split; [reflexivity | exact H].
  - intros (a' & Ha & Hk). congruence.
  - discriminate.
  - intros (a' & Ha & _). discriminate.
Qed.

Lemma Ok_inj {A : Type} (a b : A) : Ok a = Ok b -> a = b.
Proof. congruence. Qed.

(** Inversion of a successful monadic computation, one bind at a time. *)
Ltac inv_ok :=
  repeat match goal with
    | H : rbind _ _ = Ok _ |- _ =>
        let a := fresh "a" in
        let Ha := fresh "Ha" in
        apply rbind_ok in H; destruct H as (a & Ha & H)
    | H : Ok _ = Ok _ |- _ => apply Ok_inj in H; try subst
    | H : Raise _ = Ok _ |- _ => discriminate H
    end.

Lemma filter_all {A : Type} (P : A -> Prop) `{!forall x, Decision (P x)}
    (l : list A) :
  (forall x, x ∈ l -> P x) -> filter P l = l.
Proof.
  induction l as [|x l IH]; intros Hall; [reflexivity|].
  rewrite filter_cons_True by (apply Hall; left).
  f_equal. apply IH. intros y Hy. apply Hall. by right.
Qed.

Lemma mapM_ok {A B : Type} (f : A -> result B) (l : list A) (l' : list B) :
  mapM f l = Ok l' <-> Forall2 (fun a b => f a = Ok b) l l'.
Proof.
  revert l'. induction l as [|x l IH]; intros l'; simpl.
  - split.
    + intros H. injection H as <-. constructor.
    + intros H. inversion H. reflexivity.
  - split.
    + intros H. inv_ok. constructor; [assumption | by apply IH].
    + intros H. inversion H as [|? y ? ys Hy Hys]; subst.
      rewrite Hy. simpl. apply IH in Hys. rewrite Hys. reflexivity.
Qed.

Lemma mapM_length {A B : Type} (f : A -> result B) (l : list A) (l' : list B) :
  mapM f l = Ok l' -> length l' = length l.
Proof.
  intros H. apply mapM_ok in H. symmetry. eapply Forall2_length, H.
Qed.

Lemma mapM_total {A B : Type} (f : A -> result B) (l : list A) :
  Forall (fun a => is_ok (f a)) l -> is_ok (mapM f l).
Proof.
  induction 1 as [|x l [y Hy] _ [ys Hys]]; simpl.
  - by exists [].
  - exists (y :: ys). by rewrite Hy; simpl; rewrite Hys.
Qed.

(** ** First occurrences *)

Lemma first_by_elem {A : Type} (key : A -> Z) (l : list A) (k : Z) :
  k ∈ key <$> first_by key l <-> k ∈ key <$> l.
Proof.
  induction l as [|x l IH]; simpl; [reflexivity|].
  rewrite !elem_of_cons, <- IH.
  split; [intros [->|H]; [by left|] | intros [->|H]; [by left|]].
  - right. apply list_elem_of_fmap in H as (y & -> & Hy).
    apply list_elem_of_filter in Hy as [_ Hy].
    apply list_elem_of_fmap. eauto.
  - destruct (decide (k = key x)) as [->|Hne]; [by left|right].
    apply list_elem_of_fmap in H as (y & -> & Hy).
    apply list_elem_of_fmap. exists y. split; [reflexivity|].
    apply list_elem_of_filter. auto.
Qed.

Lemma NoDup_fmap_filter {A : Type} (key : A -> Z) (P : A -> Prop)
    `{!forall x, Decision (P x)} (l : list A) :
  NoDup (key <$> l) -> NoDup (key <$> filter P l).
Proof.
  induction l as [|x l IH]; simpl; [constructor|].
  rewrite NoDup_cons. intros [Hx Hl].
  rewrite filter_cons. destruct (decide (P x)); [|auto].
  simpl. apply NoDup_cons. split; [|auto].
  intros Hin. apply Hx.
  apply list_elem_of_fmap in Hin as (y & -> & Hy).
  apply list_elem_of_filter in Hy as [_ Hy].
  apply list_elem_of_fmap. eauto.
Qed.

Lemma first_by_NoDup {A : Type} (key : A -> Z) (l : list A) :
  NoDup (key <$> first_by key l).
Proof.
  induction l as [|x l IH]; simpl; [constructor|].
  apply NoDup_cons. split.
  - intros Hin. apply list_elem_of_fmap in Hin as (y & Hk & Hy).
    apply list_elem_of_filter in Hy as [Hy _]. congruence.
  - by apply NoDup_fmap_filter.
Qed.

Lemma fmap_filter_key {A : Type} (key : A -> Z) (k : Z) (l : list A) :
  key <$> filter (fun y => key y <> k) l = filter (fun z => z <> k) (key <$> l).
Proof.
  induction l as [|y l IH]; [reflexivity|].
  rewrite fmap_cons, !filter_cons.
  destruct (decide (key y <> k)); rewrite ?fmap_cons, IH; reflexivity.
Qed.

Lemma first_by_fmap {A : Type} (key : A -> Z) (l : list A) :
  key <$> first_by key l = first_occurrences (key <$> l).
Proof.
  unfold first_occurrences.
  induction l as [|x l IH]; [reflexivity|].
  cbn [first_by fmap list_fmap]. unfold id at 1. f_equal.
  rewrite fmap_filter_key, IH. reflexivity.
Qed.

Lemma first_occurrences_length (ids : list Z) :
  length (first_occurrences ids) = distinct_count ids.
Proof.
  unfold distinct_count.
  pose proof (first_by_NoDup id ids) as Hnd. rewrite list_fmap_id in Hnd.
  rewrite <- (size_list_to_set (C := gset Z)) by exact Hnd.
  f_equal. apply set_eq. intros k. rewrite !elem_of_list_to_set.
  pose proof (first_by_elem id ids k) as H. by rewrite !list_fmap_id in H.
Qed.

(** ** Deduplication by identifier *)

Lemma movie_id_of_id_of (movie : record) :
  has_id movie -> movie_id_of movie = Ok (id_of movie).
Proof. intros [z Hz]. unfold id_of. by rewrite Hz. Qed.

Lemma movie_id_of_lookup (movie : record) (z : Z) :
  movie_id_of movie = Ok z <-> movie !! "movie_id" = Some (VInt z).
Proof.
  unfold movie_id_of, getitem.
  destruct (movie !! "movie_id") as [[]|]; simpl; split; intros H;
    try discriminate; congruence.
Qed.

Lemma movie_id_of_same (m1 m2 : record) :
  m1 !! "movie_id" = m2 !! "movie_id" -> movie_id_of m1 = movie_id_of m2.
Proof. unfold movie_id_of, getitem. by intros ->. Qed.

Lemma unique_from_has_id (seen : gset Z) (movies kept : list record) :
  unique_from seen movies = Ok kept -> Forall has_id movies.
Proof.
  revert seen kept. induction movies as [|m movies IH]; intros seen kept H.
  - constructor.
  - simpl in H. apply rbind_ok in H as (z & Hz & H).
    constructor; [by exists z|].
    destruct (decide (z ∈ seen)); [by eapply IH|].
    inv_ok. by eapply IH.
Qed.

Lemma unique_from_spec (seen : gset Z) (movies : list record) :
  Forall has_id movies ->
  unique_from seen movies
  = Ok (filter (fun m => id_of m ∉ seen) (first_by id_of movies)).
Proof.
  intros Hall. revert seen.
  induction Hall as [|m movies Hm _ IH]; intros seen; [reflexivity|].
  cbn [unique_from first_by]. rewrite (movie_id_of_id_of m Hm). simpl.
  rewrite filter_cons, list_filter_filter.
  destruct (decide (id_of m ∈ seen)) as [Hin|Hnin].
  - rewrite decide_False by tauto. rewrite IH. f_equal.
    apply list_filter_iff. intros y. split; [|tauto].
    intros Hy. split; [exact Hy|]. congruence.
  - rewrite decide_True by exact Hnin. rewrite IH. simpl. do 2 f_equal.
    apply list_filter_iff. intros y.
    rewrite not_elem_of_union, not_elem_of_singleton. tauto.
Qed.

Lemma unique_by_id_spec (movies : list record) :
  Forall has_id movies -> unique_by_id movies = Ok (first_by id_of movies).
Proof.
  intros H. unfold unique_by_id. rewrite unique_from_spec by exact H.
  f_equal. apply filter_all. intros m _. set_solver.
Qed.

Lemma unique_by_id_inv (movies kept : list record) :
  unique_by_id movies = Ok kept ->
  Forall has_id movies /\ kept = first_by id_of movies.
Proof.
  intros H. pose proof (unique_from_has_id _ _ _ H) as Hall.
  split; [exact Hall|]. rewrite unique_by_id_spec in H by exact Hall. congruence.
Qed.

Lemma first_by_sublist {A : Type} (key : A -> Z) (l : list A) :
  first_by key l ⊆ l.
Proof.
  induction l as [|x l IH]; simpl; [done|].
  intros y. rewrite !elem_of_cons. intros [->|Hy]; [by left|right].
  apply list_elem_of_filter in Hy as [_ Hy]. by apply IH.
Qed.

(** Deduplicating a deduplicated list changes nothing. *)
Lemma first_by_idemp {A : Type} (key : A -> Z) (l : list A) :
  NoDup (key <$> l) -> first_by key l = l.
Proof.
  induction l as [|x l IH]; [reflexivity|].
  rewrite fmap_cons, NoDup_cons. intros [Hx Hl].
  cbn [first_by]. rewrite IH by exact Hl. f_equal.
  apply filter_all. intros y Hy Heq. apply Hx.
  apply list_elem_of_fmap. exists y. by rewrite Heq.
Qed.

(** ** Enrichment *)

Section Enrichment.

Variable py_str : value -> string.
Variable api_detail : Z -> result value.

Local Abbreviation fetch := (fetch_movie_details py_str api_detail).
Local Abbreviation enrich := (enrich_movie_data_parallel py_str api_detail).
Local Abbreviation merged := (merged_with_detail py_str api_detail).

Lemma detail_record_id (movie_id : Z) (movie : value) (detail : record) :
  detail_record py_str movie_id movie = Ok detail ->
  detail !! "movie_id" = Some (VInt movie_id).
Proof.
  unfold detail_record. intros H. inv_ok.
  by repeat (rewrite lookup_insert_ne by done); rewrite lookup_insert_eq.
Qed.

Lemma fetch_movie_details_id (movie_id : Z) :
  fetch movie_id !! "movie_id" = Some (VInt movie_id).
Proof.
  unfold fetch_movie_details.
  destruct (rbind _ _) as [detail|e] eqn:E.
  - apply rbind_ok in E as (movie & _ & E). by eapply detail_record_id.
  - apply lookup_singleton_eq.
Qed.

Lemma fetch_movie_details_nonempty (movie_id : Z) : fetch movie_id <> ∅.
Proof.
  intros H. pose proof (fetch_movie_details_id movie_id) as Hid.
  rewrite H, lookup_empty in Hid. discriminate.
Qed.

Lemma details_by_id_spec (ids : list Z) :
  exists details_dict,
    details_by_id (fetch <$> ids) = Ok details_dict /\
    forall k, k ∈ ids -> details_dict !! k = Some (fetch k).
Proof.
  unfold details_by_id.
  cut (forall acc : gmap Z record, exists details_dict,
        foldM (fun (acc : gmap Z record) (detail : record) =>
                 if decide (detail = ∅) then Ok acc
                 else movie_id <- movie_id_of detail ;;
                      Ok (<[movie_id := detail]> acc))
              (fetch <$> ids) acc = Ok details_dict /\
        forall k, details_dict !! k
                  = if decide (k ∈ ids) then Some (fetch k) else acc !! k).
  { intros H. destruct (H ∅) as (dd & Hdd & Hk). exists dd. split; [exact Hdd|].
    intros k Hin. rewrite Hk. by rewrite decide_True. }
  induction ids as [|x ids IH]; intros acc.
  - exists acc. split; [reflexivity|]. intros k.
    rewrite decide_False; [reflexivity | apply not_elem_of_nil].
  - cbn [fmap list_fmap foldM].
    rewrite decide_False by apply fetch_movie_details_nonempty.
    rewrite (proj2 (movie_id_of_lookup _ _) (fetch_movie_details_id x)).
    cbn [rbind].
    destruct (IH (<[x := fetch x]> acc)) as (dd & Hdd & Hk).
    exists dd. split; [exact Hdd|]. intros k. rewrite Hk.
    destruct (decide (k = x)) as [->|Hne].
    + rewrite lookup_insert_eq. rewrite (decide_True (P := x ∈ x :: ids)) by left.
      by destruct (decide (x ∈ ids)).
    + rewrite lookup_insert_ne by done.
      destruct (decide (k ∈ ids)) as [Hin|Hnin].
      * rewrite decide_True; [reflexivity | by right].
      * rewrite decide_False; [reflexivity|].
        rewrite elem_of_cons. tauto.
Qed.

(** The enrichment in closed form: it succeeds exactly on records that all
    carry an identifier, with a positive worker count, and then joins the
    selected first occurrences with their details. *)
Lemma enrich_spec (movies : list record) (max_details : option Z)
    (max_workers : Z) :
  Forall has_id movies -> 0 < max_workers ->
  enrich movies max_details max_workers
  = Ok (merged
          <$> movies_to_process max_details (first_by id_of movies)).
Proof.
  intros Hall Hw. unfold enrich_movie_data_parallel.
  rewrite unique_by_id_spec by exact Hall. cbn [rbind].
  set (sel := movies_to_process max_details (first_by id_of movies)).
  assert (Hsel : Forall has_id sel).
  { apply Forall_forall. intros m Hm. rewrite Forall_forall in Hall.
    apply Hall. apply (first_by_sublist id_of). revert Hm. unfold sel.
    unfold movies_to_process, slice_to.
    destruct max_details as [k|]; [|done].
    destruct (k =? 0); [done|].
    destruct (0 <=? k); apply subseteq_take. }
  assert (Hids : mapM movie_id_of sel = Ok (id_of <$> sel)).
  { apply mapM_ok. clear -Hsel. induction Hsel; constructor; auto.
    by apply movie_id_of_id_of. }
  rewrite Hids. cbn [rbind].
  destruct (Z.leb_spec max_workers 0) as [?|_]; [lia|].
  destruct (details_by_id_spec (id_of <$> sel)) as (dd & Hdd & Hk).
  rewrite Hdd. cbn [rbind]. apply mapM_ok.
  clear Hids Hdd.
  assert (Hin : forall m, m ∈ sel -> dd !! id_of m = Some (fetch (id_of m))).
  { intros m Hm. apply Hk. apply list_elem_of_fmap. eauto. }
  clear Hk. induction Hsel as [|m sel' Hm Hsel' IH]; [constructor|].
  rewrite fmap_cons. constructor.
  - unfold join_movie. rewrite (movie_id_of_id_of m Hm). cbn [rbind].
    rewrite Hin by left. reflexivity.
  - apply IH. intros m' Hm'. apply Hin. by right.
Qed.

Lemma enrich_inv (movies out : list record) (max_details : option Z)
    (max_workers : Z) :
  enrich movies max_details max_workers = Ok out ->
  Forall has_id movies /\ 0 < max_workers.
Proof.
  unfold enrich_movie_data_parallel. intros H.
  apply rbind_ok in H as (u & Hu & H).
  apply rbind_ok in H as (ids & _ & H).
  split; [by eapply unique_from_has_id|].
  destruct (Z.leb_spec max_workers 0); [discriminate | assumption].
Qed.

Lemma merged_with_detail_id (movie : record) :
  merged movie !! "movie_id" = movie !! "movie_id".
Proof.
  unfold merged_with_detail. rewrite lookup_union_r; [reflexivity|].
  apply lookup_delete_eq.
Qed.

Lemma merged_with_detail_lookup (movie : record) (key : string) :
  key <> "movie_id"%string ->
  merged movie !! key
  = match fetch (id_of movie) !! key with
    | Some w => Some w
    | None => movie !! key
    end.
Proof.
  intros Hne. unfold merged_with_detail.
  rewrite lookup_union, lookup_delete_ne by done.
  destruct (fetch (id_of movie) !! key), (movie !! key); reflexivity.
Qed.

(** The selection [unique_movies[:max_details] if max_details else
    unique_movies] is a prefix of the deduplicated list. *)
Lemma movies_to_process_prefix (max_details : option Z) (l : list record) :
  movies_to_process max_details l `prefix_of` l.
Proof.
  unfold movies_to_process, slice_to.
  destruct max_details as [k|]; [|done].
  destruct (k =? 0); [done|].
  destruct (0 <=? k); apply prefix_take.
Qed.

Lemma movies_to_process_length (max_details : option Z) (l : list record) :
  Z.of_nat (length (movies_to_process max_details l))
  = match max_details with
    | None => Z.of_nat (length l)
    | Some k =>
        if k =? 0 then Z.of_nat (length l)
        else if 0 <? k then Z.min k (Z.of_nat (length l))
        else Z.max 0 (Z.of_nat (length l) + k)
    end.
Proof.
  unfold movies_to_process, slice_to.
  destruct max_details as [k|]; [|reflexivity].
  destruct (Z.eqb_spec k 0) as [->|Hk]; [reflexivity|].
  destruct (Z.leb_spec 0 k), (Z.ltb_spec 0 k); try lia; rewrite length_take; lia.
Qed.

(** C1 (as amended): for every listing selected for enrichment, the record
    the enrichment returns at its position is the union of the listing's
    fields and the fields of the detail record fetched for its identifier;
    the identifier is the listing's (the detail's copy is removed before the
    merge), and on every other key that both define the detail's value takes
    precedence over the listing's. *)
Theorem enrich_merge_detail_precedence (movies out : list record)
    (max_details : option Z) (max_workers : Z) :
  enrich movies max_details max_workers = Ok out ->
  exists unique_movies,
    unique_by_id movies = Ok unique_movies /\
    Forall2
      (fun movie merged =>
         let detail := fetch (id_of movie) in
         detail !! "movie_id" = movie !! "movie_id" /\
         merged !! "movie_id" = movie !! "movie_id" /\
         (forall key, key <> "movie_id"%string ->
            merged !! key = match detail !! key with
                            | Some w => Some w
                            | None => movie !! key
                            end) /\
         dom merged = dom detail ∪ dom movie)
      (movies_to_process max_details unique_movies) out.
Proof.
  intros H. destruct (enrich_inv _ _ _ _ H) as [Hall Hw].
  rewrite enrich_spec in H by assumption. apply Ok_inj in H. subst out.
  exists (first_by id_of movies). split; [by apply unique_by_id_spec|].
  apply Forall2_fmap_r, Forall_Forall2_diag, Forall_forall.
  intros movie Hin.
  assert (Hid : has_id movie).
  { rewrite Forall_forall in Hall. apply Hall, (first_by_sublist id_of).
    eapply elem_of_prefix; [exact Hin | apply movies_to_process_prefix]. }
  apply movie_id_of_id_of, movie_id_of_lookup in Hid.
  cbn zeta. split; [by rewrite fetch_movie_details_id|].
  split; [apply merged_with_detail_id|].
  split; [intros key Hne; by apply merged_with_detail_lookup|].
  unfold merged_with_detail. rewrite dom_union_L, dom_delete_L.
  apply set_eq. intros key. rewrite !elem_of_union, elem_of_difference,
    elem_of_singleton, !elem_of_dom.
  destruct (decide (key = "movie_id"%string)) as [->|Hne]; [|tauto].
  rewrite Hid. split; [tauto|]. intros _. right. eauto.
Qed.

(** C2 (as amended): the enrichment keeps the first record of each
    identifier: its [i]-th output record is the [i]-th of the records that
    come first for their identifier, joined with its detail.  The output has
    length [min(maxDetails, d)] when [maxDetails] is a positive number,
    length [d] when [maxDetails] is unset or 0, and length
    [max(0, d + maxDetails)] when [maxDetails] is negative, where [d] is the
    number of distinct identifiers; the identifiers of the output are an
    initial segment of the identifiers in order of first occurrence, so no
    identifier occurs twice. *)
Theorem enrich_length_and_order (movies : list record)
    (max_details : option Z) (max_workers : Z) :
  Forall has_id movies -> 0 < max_workers ->
  exists out,
    enrich movies max_details max_workers = Ok out /\
    let ids := id_of <$> movies in
    let d := Z.of_nat (distinct_count ids) in
    Forall2 (fun movie joined => joined = merged_with_detail py_str api_detail movie)
      (take (length out) (first_by id_of movies)) out /\
    Forall has_id out /\
    id_of <$> out `prefix_of` first_occurrences ids /\
    NoDup (id_of <$> out) /\
    Z.of_nat (length out)
    = match max_details with
      | None => d
      | Some k =>
          if k =? 0 then d
          else if 0 <? k then Z.min k d
          else Z.max 0 (d + k)
      end.
Proof.
  intros Hall Hw. eexists. split; [by apply enrich_spec|]. cbn zeta.
  set (sel := movies_to_process max_details (first_by id_of movies)).
  assert (Hsub : forall m, m ∈ sel -> has_id m).
  { intros m Hin. rewrite Forall_forall in Hall.
    apply Hall, (first_by_sublist id_of).
    eapply elem_of_prefix; [exact Hin | apply movies_to_process_prefix]. }
  assert (Hids : id_of <$> (merged <$> sel) = id_of <$> sel).
  { rewrite <- list_fmap_compose. apply list_fmap_ext. intros _ m _.
    unfold compose, id_of.
    by rewrite (movie_id_of_same _ _ (merged_with_detail_id m)). }
  assert (Hpre : id_of <$> sel `prefix_of` first_occurrences (id_of <$> movies)).
  { rewrite <- first_by_fmap.
    destruct (movies_to_process_prefix max_details (first_by id_of movies))
      as [rest Hrest].
    fold sel in Hrest. rewrite Hrest, fmap_app. by eexists. }
  split; [|split; [|split; [|split]]].
  - destruct (movies_to_process_prefix max_details (first_by id_of movies))
      as [rest Hrest].
    fold sel in Hrest. rewrite Hrest, length_fmap, take_app_length.
    apply Forall2_fmap_r, Forall_Forall2_diag, Forall_forall. by intros m _.
  - apply Forall_fmap, Forall_forall. intros m Hin. destruct (Hsub m Hin) as [z Hz].
    exists z. cbn [compose].
    by rewrite (movie_id_of_same _ _ (merged_with_detail_id m)).
  - by rewrite Hids.
  - rewrite Hids. destruct Hpre as [rest Hrest].
    pose proof (first_by_NoDup id (id_of <$> movies)) as Hnd.
    rewrite list_fmap_id in Hnd. fold (first_occurrences (id_of <$> movies)) in Hnd.
    rewrite Hrest in Hnd. by apply NoDup_app in Hnd as [Hnd _].
  - rewrite length_fmap. unfold sel. rewrite movies_to_process_length.
    rewrite <- first_occurrences_length, <- first_by_fmap, length_fmap.
    reflexivity.
Qed.

(** C6: a detail fetch that fails (the request raises, or the response cannot
    be turned into a detail record) does not abort the enrichment: the
    fetch answers with the stub that holds the identifier only, and the
    listing appears at its position in the output with its fields
    unchanged. *)
Theorem enrich_survives_failed_fetch (movies : list record)
    (max_details : option Z) (max_workers : Z) :
  Forall has_id movies -> 0 < max_workers ->
  exists out,
    enrich movies max_details max_workers = Ok out /\
    forall (i : nat) (movie : record) (e : exn),
      movies_to_process max_details (first_by id_of movies) !! i = Some movie ->
      (response <- api_detail (id_of movie) ;;
       detail_record py_str (id_of movie) response) = Raise e ->
      fetch (id_of movie) = {["movie_id" := VInt (id_of movie)]} /\
      out !! i = Some movie.
Proof.
  intros Hall Hw. eexists. split; [by apply enrich_spec|].
  intros i movie e Hi Hfail.
  assert (Hstub : fetch (id_of movie) = {["movie_id" := VInt (id_of movie)]}).
  { unfold fetch_movie_details. by rewrite Hfail. }
  split; [exact Hstub|].
  rewrite list_lookup_fmap, Hi. cbn. f_equal.
  unfold merged_with_detail.
  rewrite Hstub, delete_singleton_eq. apply (left_id_L ∅ (∪)).
Qed.

End Enrichment.

(** C1, counterexample: the listing and the detail of movie 7 both define
    [budget]; the merged record holds the detail's 10, not the listing's 5. *)
Lemma listing_value_overridden :
  exists merged,
    enrich_movie_data_parallel sample_str sample_detail [sample_listing] None 5
    = Ok [merged] /\
    sample_listing !! "budget" = Some (VInt 5) /\
    fetch_movie_details sample_str sample_detail 7 !! "budget" = Some (VInt 10) /\
    merged !! "budget" = Some (VInt 10) /\
    merged !! "budget" <> sample_listing !! "budget".
Proof.
  exists sample_enriched. split; [reflexivity|].
  repeat split; try reflexivity.
  vm_compute. discriminate.
Qed.

Lemma enrich_merge_detail_precedence_witness :
  enrich_movie_data_parallel sample_str sample_detail
    [sample_listing; sample_listing_8] None 5
  = Ok [sample_enriched; sample_listing_8] /\
  exists unique_movies,
    unique_by_id [sample_listing; sample_listing_8] = Ok unique_movies /\
    Forall2
      (fun movie merged =>
         let detail := fetch_movie_details sample_str sample_detail (id_of movie) in
         detail !! "movie_id" = movie !! "movie_id" /\
         merged !! "movie_id" = movie !! "movie_id" /\
         (forall key, key <> "movie_id"%string ->
            merged !! key = match detail !! key with
                            | Some w => Some w
                            | None => movie !! key
                            end) /\
         dom merged = dom detail ∪ dom movie)
      (movies_to_process None unique_movies) [sample_enriched; sample_listing_8].
Proof.
  split; [reflexivity|].
  apply (enrich_merge_detail_precedence sample_str sample_detail
           [sample_listing; sample_listing_8] _ None 5).
  reflexivity.
Defined.

(** C2, counterexample: with [max_details = 0] nothing is cut off: two
    distinct listings give two records, not [min(0, 2) = 0]. *)
Lemma enrich_zero_max_details_keeps_all :
  exists out,
    enrich_movie_data_parallel sample_str sample_detail
      [sample_listing; sample_listing_8] (Some 0) 5 = Ok out /\
    distinct_count (id_of <$> [sample_listing; sample_listing_8]) = 2%nat /\
    length out = 2%nat /\
    Z.of_nat (length out)
    <> Z.min 0 (Z.of_nat (distinct_count (id_of <$> [sample_listing; sample_listing_8]))).
Proof.
  exists [sample_enriched; sample_listing_8]. split; [reflexivity|].
  assert (Hd : distinct_count (id_of <$> [sample_listing; sample_listing_8]) = 2%nat)
    by (vm_compute; reflexivity).
  rewrite Hd. repeat split. cbn. lia.
Qed.

Lemma sample_listings_have_id :
  Forall has_id [sample_listing; sample_listing; sample_listing_8].
Proof.
  repeat constructor; [exists 7 | exists 7 | exists 8]; reflexivity.
Defined.

Lemma sample_repeated_have_id : Forall has_id sample_repeated.
Proof.
  repeat constructor; [exists 7 | exists 7 | exists 8]; reflexivity.
Defined.

Lemma enrich_length_and_order_witness :
  Forall has_id sample_repeated /\
  0 < 5 /\
  first_by id_of sample_repeated = [sample_listing; sample_listing_8] /\
  enrich_movie_data_parallel sample_str sample_detail sample_repeated (Some 2) 5
  = Ok [sample_enriched; sample_listing_8] /\
  exists out,
    enrich_movie_data_parallel sample_str sample_detail sample_repeated (Some 2) 5
    = Ok out /\
    let ids := id_of <$> sample_repeated in
    let d := Z.of_nat (distinct_count ids) in
    Forall2 (fun movie joined => joined = merged_with_detail sample_str sample_detail movie)
      (take (length out) (first_by id_of sample_repeated)) out /\
    Forall has_id out /\
    id_of <$> out `prefix_of` first_occurrences ids /\
    NoDup (id_of <$> out) /\
    Z.of_nat (length out) = Z.min 2 d.
Proof.
  split; [exact sample_repeated_have_id|]. split; [lia|].
  split; [reflexivity|]. split; [reflexivity|].
  apply (enrich_length_and_order sample_str sample_detail sample_repeated (Some 2) 5);
    [exact sample_repeated_have_id | lia].
Defined.

Lemma enrich_survives_failed_fetch_witness :
  Forall has_id [sample_listing; sample_listing; sample_listing_8] /\
  0 < 5 /\
  exists out,
    enrich_movie_data_parallel sample_str sample_detail
      [sample_listing; sample_listing; sample_listing_8] None 5 = Ok out /\
    forall (i : nat) (movie : record) (e : exn),
      movies_to_process None
        (first_by id_of [sample_listing; sample_listing; sample_listing_8]) !! i
      = Some movie ->
      (response <- sample_detail (id_of movie) ;;
       detail_record sample_str (id_of movie) response) = Raise e ->
      fetch_movie_details sample_str sample_detail (id_of movie)
      = {["movie_id" := VInt (id_of movie)]} /\
      out !! i = Some movie.
Proof.
  split; [exact sample_listings_have_id|]. split; [lia|].
  apply (enrich_survives_failed_fetch sample_str sample_detail
           [sample_listing; sample_listing; sample_listing_8] None 5);
    [exact sample_listings_have_id | lia].
Defined.

(** ** Statistics *)

Lemma mapM_app {A B : Type} (f : A -> result B) (l1 l2 : list A) (r : list B) :
  mapM f (l1 ++ l2) = Ok r <->
  exists r1 r2, mapM f l1 = Ok r1 /\ mapM f l2 = Ok r2 /\ r = r1 ++ r2.
Proof.
  rewrite mapM_ok. split.
  - intros H. apply Forall2_app_inv_l in H as (r1 & r2 & H1 & H2 & ->).
    exists r1, r2. by rewrite !mapM_ok.
  - intros (r1 & r2 & H1 & H2 & ->). apply Forall2_app; by apply mapM_ok.
Qed.

Lemma foldM_ok_cons {A S : Type} (step : S -> A -> result S) (x : A)
    (l : list A) (s s' : S) :
  foldM step (x :: l) s = Ok s' <->
  exists s1, step s x = Ok s1 /\ foldM step l s1 = Ok s'.
Proof. simpl. apply rbind_ok. Qed.

Section Statistics.

Variable float_of_str : string -> option float.

Local Abbreviation to_float := (py_float float_of_str).
Local Abbreviation collect1 := (collect_feature float_of_str).
Local Abbreviation collect := (collect_movie float_of_str).
Local Abbreviation obs := (observed float_of_str).

(** One feature of one record: the collected list grows by the record's
    contribution. *)
Lemma collect_feature_ok (movie : record) (values values' : gmap string (list float))
    (g : string) :
  collect1 movie values g = Ok values' ->
  exists vs,
    mapM to_float (present1 g movie) = Ok vs /\
    default [] (values' !! g) = default [] (values !! g) ++ vs /\
    forall f, f <> g -> values' !! f = values !! f.
Proof.
  unfold collect_feature, present1.
  destruct (movie !! g) as [v|]; [destruct (is_none v)|]; intros H.
  - apply Ok_inj in H as <-. exists []. by rewrite app_nil_r.
  - apply rbind_ok in H as (x & Hx & H). apply Ok_inj in H as <-.
    exists [x]. cbn [mapM]. rewrite Hx. cbn [rbind].
    split; [reflexivity|]. split; [by rewrite lookup_insert_eq|].
    intros f Hne. by rewrite lookup_insert_ne.
  - apply Ok_inj in H as <-. exists []. by rewrite app_nil_r.
Qed.

Lemma collect_feature_total (movie : record) (values : gmap string (list float))
    (g : string) :
  is_ok (mapM to_float (present1 g movie)) ->
  is_ok (collect1 movie values g).
Proof.
  unfold collect_feature, present1.
  destruct (movie !! g) as [v|]; [destruct (is_none v)|]; intros [vs H].
  - by eexists.
  - cbn [mapM] in H. apply rbind_ok in H as (x & Hx & _).
    rewrite Hx. by eexists.
  - by eexists.
Qed.

(** The inner loop over a duplicate-free list of features. *)
Lemma collect_features_ok (movie : record) (fs : list string) :
  NoDup fs ->
  forall values values',
    foldM (collect1 movie) fs values = Ok values' ->
    forall f,
      exists vs,
        (if decide (f ∈ fs) then mapM to_float (present1 f movie) = Ok vs
         else vs = []) /\
        default [] (values' !! f) = default [] (values !! f) ++ vs.
Proof.
  induction 1 as [|g fs Hg Hnd IH]; intros values values' H f.
  - apply Ok_inj in H as <-. exists []. rewrite decide_False by apply not_elem_of_nil.
    by rewrite app_nil_r.
  - apply foldM_ok_cons in H as (v1 & H1 & H2).
    apply collect_feature_ok in H1 as (vs1 & Hvs1 & Hg1 & Hother).
    destruct (IH _ _ H2 f) as (vs & Hvs & Hf).
    destruct (decide (f = g)) as [->|Hne].
    + rewrite decide_False in Hvs by exact Hg. subst vs.
      exists vs1. rewrite decide_True by left. split; [exact Hvs1|].
      by rewrite Hf, app_nil_r.
    + exists vs. rewrite Hother in Hf by exact Hne. split; [|exact Hf].
      destruct (decide (f ∈ fs)) as [Hin|Hnin].
      * rewrite decide_True; [exact Hvs | by right].
      * rewrite decide_False; [exact Hvs|]. rewrite elem_of_cons. tauto.
Qed.

Lemma collect_features_total (movie : record) (fs : list string) :
  (forall f, f ∈ fs -> is_ok (mapM to_float (present1 f movie))) ->
  forall values, is_ok (foldM (collect1 movie) fs values).
Proof.
  induction fs as [|g fs IH]; intros Hall values.
  - by eexists.
  - destruct (collect_feature_total movie values g) as [v1 H1]; [apply Hall; left|].
    destruct (IH (fun f Hf => Hall f (list_elem_of_further _ _ _ Hf)) v1) as [v2 H2].
    exists v2. apply foldM_ok_cons. eauto.
Qed.

Lemma numerical_features_NoDup : NoDup numerical_features.
Proof. apply (bool_decide_unpack _). vm_compute. exact I. Qed.

(** The outer loop over the records. *)
Lemma collect_movies_ok (movies : list record) :
  forall values values',
    foldM collect movies values = Ok values' ->
    forall f, f ∈ numerical_features ->
      exists vs,
        obs f movies = Ok vs /\
        default [] (values' !! f) = default [] (values !! f) ++ vs.
Proof.
  unfold observed, present_values.
  induction movies as [|m movies IH]; intros values values' H f Hf.
  - apply Ok_inj in H as <-. exists []. by rewrite app_nil_r.
  - apply foldM_ok_cons in H as (v1 & H1 & H2).
    destruct (collect_features_ok m _ numerical_features_NoDup _ _ H1 f)
      as (vs1 & Hvs1 & Hv1).
    rewrite decide_True in Hvs1 by exact Hf.
    destruct (IH _ _ H2 f Hf) as (vs & Hvs & Hv).
    exists (vs1 ++ vs). split.
    + cbn [mbind list_bind]. apply mapM_app. eauto.
    + by rewrite Hv, Hv1, app_assoc.
Qed.

Lemma collect_movies_total (movies : list record) :
  (forall f, f ∈ numerical_features -> is_ok (obs f movies)) ->
  forall values, is_ok (foldM collect movies values).
Proof.
  unfold observed, present_values.
  induction movies as [|m movies IH]; intros Hall values.
  - by eexists.
  - assert (H1 : forall f, f ∈ numerical_features ->
                   is_ok (mapM to_float (present1 f m)) /\
                   is_ok (mapM to_float (movies ≫= present1 f))).
    { intros f Hf. destruct (Hall f Hf) as [r Hr]. cbn [mbind list_bind] in Hr.
      apply mapM_app in Hr as (r1 & r2 & Hr1 & Hr2 & _).
      split; by eexists. }
    destruct (collect_features_total m numerical_features
                (fun f Hf => proj1 (H1 f Hf)) values) as [v1 Hv1].
    destruct (IH (fun f Hf => proj2 (H1 f Hf)) v1) as [v2 Hv2].
    exists v2. apply foldM_ok_cons. eauto.
Qed.

Lemma foldl_insert_lookup (F : string -> value) (fs : list string) (acc : record)
    (f : string) :
  foldl (fun stats g => <[g := F g]> stats) acc fs !! f
  = if decide (f ∈ fs) then Some (F f) else acc !! f.
Proof.
  revert acc. induction fs as [|g fs IH]; intros acc; cbn [foldl].
  - rewrite decide_False; [reflexivity | apply not_elem_of_nil].
  - rewrite IH. destruct (decide (f ∈ fs)) as [Hin|Hnin].
    + rewrite decide_True; [reflexivity | by right].
    + destruct (decide (f = g)) as [->|Hne].
      * rewrite decide_True by left. apply lookup_insert_eq.
      * rewrite decide_False by (rewrite elem_of_cons; tauto).
        by apply lookup_insert_ne.
Qed.

Lemma empty_values_lookup (f : string) :
  default [] (empty_values !! f) = [].
Proof.
  unfold empty_values. destruct (list_to_map _ !! f) as [vs|] eqn:E; [|reflexivity].
  apply elem_of_list_to_map_2, list_elem_of_fmap in E as (g & Hg & _).
  by injection Hg as _ ->.
Qed.

(** [calculate_statistics], when it returns: every feature's statistic is
    [feature_stat] of the feature's observed values. *)
Lemma calculate_statistics_ok (movies : list record) (stats : record) :
  calculate_statistics float_of_str movies = Ok stats ->
  forall f, f ∈ numerical_features ->
    exists vals,
      obs f movies = Ok vals /\ stats !! f = Some (feature_stat f vals).
Proof.
  unfold calculate_statistics, collect_values. intros H f Hf.
  apply rbind_ok in H as (values & Hvalues & H). apply Ok_inj in H as <-.
  destruct (collect_movies_ok _ _ _ Hvalues f Hf) as (vals & Hvals & Hv).
  exists vals. split; [exact Hvals|].
  rewrite (foldl_insert_lookup
             (fun g => feature_stat g (default [] (values !! g)))).
  rewrite decide_True by exact Hf.
  by rewrite Hv, empty_values_lookup.
Qed.

Lemma calculate_statistics_total (movies : list record) :
  (forall f, f ∈ numerical_features -> is_ok (obs f movies)) ->
  is_ok (calculate_statistics float_of_str movies).
Proof.
  intros Hall. unfold calculate_statistics, collect_values.
  destruct (collect_movies_total movies Hall empty_values) as [values Hv].
  rewrite Hv. by eexists.
Qed.

Lemma feature_stat_not_none (f : string) (vals : list float) :
  is_none (feature_stat f vals) = false.
Proof. unfold feature_stat. destruct vals; [reflexivity|]. by destruct (uses_median f). Qed.

Lemma feature_stat_float (f : string) (vals : list float) :
  is_ok (to_float (feature_stat f vals)).
Proof.
  unfold feature_stat. destruct vals; [by eexists|].
  destruct (uses_median f); by eexists.
Qed.

End Statistics.

(** ** The order of floats and [sorted] *)

Lemma not_nan_spec (x : float) : not_nan x -> Prim2SF x <> S754_nan.
Proof.
  unfold not_nan, is_nan. rewrite FloatAxioms.eqb_spec. intros H Hnan.
  rewrite Hnan in H. discriminate.
Qed.

Lemma SFcompare_flip (a b : spec_float) :
  a <> S754_nan -> b <> S754_nan ->
  SFltb b a = false -> SFleb a b = true.
Proof.
  unfold SFltb, SFleb. intros Ha Hb.
  destruct a as [sa|sa| |sa ma ea], b as [sb|sb| |sb mb eb]; try congruence;
    cbn [SFcompare]; try (destruct sa); try (destruct sb); try done.
  - rewrite (Z.compare_antisym ea eb).
    destruct (ea ?= eb) eqn:E; cbn [CompOpp]; try done.
    rewrite <- (Pos.compare_cont_antisym _ _ Eq). cbn [CompOpp].
    by destruct (Pos.compare_cont Eq ma mb).
  - rewrite (Z.compare_antisym ea eb).
    destruct (ea ?= eb) eqn:E; cbn [CompOpp]; try done.
    rewrite <- (Pos.compare_cont_antisym _ _ Eq). cbn [CompOpp].
    by destruct (Pos.compare_cont Eq ma mb).
Qed.

Lemma float_not_lt_le (x y : float) :
  not_nan x -> not_nan y -> PrimFloat.ltb y x = false -> float_le x y.
Proof.
  unfold float_le. rewrite FloatAxioms.ltb_spec, FloatAxioms.leb_spec. intros Hx Hy.
  apply SFcompare_flip; by apply not_nan_spec.
Qed.

Lemma float_lt_le (x y : float) : PrimFloat.ltb x y = true -> float_le x y.
Proof.
  unfold float_le. rewrite FloatAxioms.ltb_spec, FloatAxioms.leb_spec. unfold SFltb, SFleb.
  by destruct (SFcompare _ _) as [[]|].
Qed.

Lemma insert_sorted_perm (x : float) (l : list float) :
  insert_sorted x l ≡ₚ x :: l.
Proof.
  induction l as [|y l IH]; cbn [insert_sorted]; [reflexivity|].
  destruct (PrimFloat.ltb y x); [|reflexivity].
  rewrite IH. apply Permutation_swap.
Qed.

Lemma sorted_perm (l : list float) : sorted l ≡ₚ l.
Proof.
  unfold sorted. induction l as [|x l IH]; cbn [foldr]; [reflexivity|].
  by rewrite insert_sorted_perm, IH.
Qed.

Lemma insert_sorted_Sorted (x : float) (l : list float) :
  not_nan x -> Forall not_nan l ->
  Sorted float_le l -> Sorted float_le (insert_sorted x l).
Proof.
  intros Hx Hl Hs. induction l as [|y l IH]; cbn [insert_sorted].
  - repeat constructor.
  - apply Forall_cons in Hl as [Hy Hl]. apply Sorted_inv in Hs as [Hs Hhd].
    destruct (PrimFloat.ltb y x) eqn:E.
    + constructor; [by apply IH|].
      destruct l as [|z l]; cbn [insert_sorted].
      * constructor. by apply float_lt_le.
      * apply HdRel_inv in Hhd.
        destruct (PrimFloat.ltb z x); constructor; [exact Hhd | by apply float_lt_le].
    + constructor; [by constructor|]. constructor. by apply float_not_lt_le.
Qed.

(** On NaN-free data [sorted] returns the data in ascending order. *)
Lemma sorted_Sorted (l : list float) :
  Forall not_nan l -> Sorted float_le (sorted l).
Proof.
  unfold sorted. induction 1 as [|x l Hx Hl IH]; cbn [foldr]; [constructor|].
  apply insert_sorted_Sorted; [exact Hx | | exact IH].
  fold (sorted l). by rewrite sorted_perm.
Qed.

(** C4: [calculate_statistics] collects, per feature, the values that are
    present and not null, coerced to floats, and returns the int 0 for a
    feature without observed values, the arithmetic mean for vote_average,
    popularity and runtime, and, when no observed value is a NaN, the median
    for budget, revenue and vote_count; it returns whenever every observed
    value can be coerced.  The median of NaN-free data is taken on their
    ascending rearrangement: the middle value for an odd count, the average
    of the two middle values for an even count; median [1,2,3,4] = 2.5 and
    mean [1,2,3] = 2.0. *)
Theorem calculate_statistics_estimators (float_of_str : string -> option float)
    (movies : list record) :
  (forall stats, calculate_statistics float_of_str movies = Ok stats ->
     forall f, f ∈ numerical_features ->
       exists vals,
         observed float_of_str f movies = Ok vals /\
         match vals with
         | [] => stats !! f = Some (VInt 0)
         | _ =>
             if bool_decide (f ∈ ["budget"; "revenue"; "vote_count"]%string)
             then Forall not_nan vals -> stats !! f = Some (VFloat (median vals))
             else stats !! f = Some (VFloat (mean vals))
         end) /\
  ((forall f, f ∈ numerical_features -> is_ok (observed float_of_str f movies)) ->
   is_ok (calculate_statistics float_of_str movies)) /\
  (forall data, Forall not_nan data ->
     let s := sorted data in
     let n := length data in
     s ≡ₚ data /\ Sorted float_le s /\
     (Nat.even n = true ->
      median data = ((nth (n / 2 - 1) s nan + nth (n / 2) s nan) / 2)%float) /\
     (Nat.odd n = true -> median data = nth (n / 2) s nan)) /\
  median [1; 2; 3; 4]%float = 2.5%float /\
  mean [1; 2; 3]%float = 2%float.
Proof.
  split; [|split; [|split; [|split]]].
  - intros stats H f Hf.
    destruct (calculate_statistics_ok _ _ _ H f Hf) as (vals & Hvals & Hstat).
    exists vals. split; [exact Hvals|]. rewrite Hstat.
    destruct vals as [|x vals]; [reflexivity|].
    unfold feature_stat, uses_median. by destruct (bool_decide _).
  - apply calculate_statistics_total.
  - intros data Hdata s n.
    assert (Hlen : length s = n) by (unfold s, n; by rewrite sorted_perm).
    split; [apply sorted_perm|]. split; [by apply sorted_Sorted|].
    unfold median. fold s. rewrite Hlen. split; intros Hpar.
    + rewrite <- Nat.negb_even, Hpar. reflexivity.
    + rewrite Hpar. reflexivity.
  - vm_compute. reflexivity.
  - vm_compute. reflexivity.
Qed.

Lemma calculate_statistics_estimators_witness :
  is_ok (calculate_statistics sample_float_of_str sample_movies) /\
  observed sample_float_of_str "budget" sample_movies = Ok [1; 2; 3; 4]%float /\
  Forall not_nan [1; 2; 3; 4]%float /\
  (forall stats, calculate_statistics sample_float_of_str sample_movies = Ok stats ->
     stats !! "budget" = Some (VFloat 2.5) /\
     stats !! "vote_average" = Some (VFloat 2) /\
     stats !! "runtime" = Some (VInt 0)).
Proof.
  pose proof (calculate_statistics_estimators sample_float_of_str sample_movies)
    as (Hok & Htotal & _).
  assert (Hdata : Forall not_nan [1; 2; 3; 4]%float) by (by repeat constructor).
  split.
  { apply Htotal. intros f Hf.
    repeat (apply elem_of_cons in Hf as [->|Hf]; [eexists; vm_compute; reflexivity|]).
    by apply elem_of_nil in Hf. }
  split; [vm_compute; reflexivity|]. split; [exact Hdata|].
  intros stats Hstats. repeat split.
  - destruct (Hok stats Hstats "budget"%string) as (vals & Hvals & Hstat);
      [by apply (bool_decide_unpack _)|].
    vm_compute in Hvals. apply Ok_inj in Hvals as <-.
    rewrite (Hstat Hdata). vm_compute. reflexivity.
  - destruct (Hok stats Hstats "vote_average"%string) as (vals & Hvals & Hstat);
      [by apply (bool_decide_unpack _)|].
    vm_compute in Hvals. apply Ok_inj in Hvals as <-.
    rewrite Hstat. vm_compute. reflexivity.
  - destruct (Hok stats Hstats "runtime"%string) as (vals & Hvals & Hstat);
      [by apply (bool_decide_unpack _)|].
    vm_compute in Hvals. apply Ok_inj in Hvals as <-.
    rewrite Hstat. reflexivity.
Defined.

(** ** Cleaning: one record *)

Lemma impute_ok (stats movie movie' : record) (g : string) :
  impute stats movie g = Ok movie' ->
  exists x, imputed stats movie g = Some x /\ movie' = <[g := x]> movie.
Proof.
  unfold impute, imputed, dict_get, getitem.
  destruct (movie !! g) as [v|]; cbn [default from_option id is_none].
  - destruct (is_none v).
    + destruct (stats !! g) as [x|]; cbn [rbind]; intros H; [|discriminate H].
      apply Ok_inj in H as <-. eauto.
    + intros H. apply Ok_inj in H as <-. eauto.
  - destruct (stats !! g) as [x|]; cbn [rbind]; intros H; [|discriminate H].
    apply Ok_inj in H as <-. eauto.
Qed.

Lemma impute_total (stats movie : record) (g : string) (x : value) :
  imputed stats movie g = Some x -> impute stats movie g = Ok (<[g := x]> movie).
Proof.
  unfold impute, imputed, dict_get, getitem.
  destruct (movie !! g) as [v|]; cbn [default from_option id is_none].
  - destruct (is_none v); intros H.
    + by rewrite H.
    + by injection H as ->.
  - intros ->. reflexivity.
Qed.

Lemma imputed_insert_eq (stats movie : record) (g : string) (x : value) :
  imputed stats movie g = Some x ->
  imputed stats (<[g := x]> movie) g = Some x.
Proof.
  unfold imputed. rewrite lookup_insert_eq.
  destruct (movie !! g) as [v|].
  - destruct (is_none v) eqn:E.
    + intros ->. by destruct (is_none x).
    + intros [= ->]. by rewrite E.
  - intros ->. by destruct (is_none x).
Qed.

Lemma imputed_insert_ne (stats movie : record) (g k : string) (x : value) :
  g <> k -> imputed stats (<[g := x]> movie) k = imputed stats movie k.
Proof. intros Hne. unfold imputed. by rewrite lookup_insert_ne. Qed.

(** The imputation loop, when it returns. *)
Lemma impute_all_ok (stats : record) (fs : list string) :
  forall movie movie',
    foldM (impute stats) fs movie = Ok movie' ->
    forall k,
      movie' !! k = if decide (k ∈ fs) then imputed stats movie k else movie !! k.
Proof.
  induction fs as [|g fs IH]; intros movie movie' H k.
  - apply Ok_inj in H as <-.
    rewrite decide_False; [reflexivity | apply not_elem_of_nil].
  - apply foldM_ok_cons in H as (m1 & H1 & H2).
    apply impute_ok in H1 as (x & Hx & ->).
    rewrite (IH _ _ H2 k).
    destruct (decide (k = g)) as [->|Hne].
    + rewrite (decide_True (P := g ∈ g :: fs)) by left.
      destruct (decide (g ∈ fs)).
      * rewrite Hx. by apply imputed_insert_eq.
      * by rewrite lookup_insert_eq.
    + destruct (decide (k ∈ fs)) as [Hin|Hnin].
      * rewrite decide_True by (by right). by apply imputed_insert_ne.
      * rewrite decide_False by (rewrite elem_of_cons; tauto).
        by apply lookup_insert_ne.
Qed.

Lemma impute_all_total (stats : record) (fs : list string) :
  forall movie,
    (forall f, f ∈ fs -> is_Some (imputed stats movie f)) ->
    is_ok (foldM (impute stats) fs movie).
Proof.
  induction fs as [|g fs IH]; intros movie Hall; [by eexists|].
  destruct (Hall g) as [x Hx]; [left|].
  destruct (IH (<[g := x]> movie)) as [m' Hm'].
  - intros f Hf. destruct (decide (g = f)) as [<-|Hne].
    + rewrite (imputed_insert_eq _ _ _ _ Hx). eauto.
    + rewrite imputed_insert_ne by exact Hne. apply Hall. by right.
  - exists m'. apply foldM_ok_cons. exists (<[g := x]> movie).
    split; [by apply impute_total | exact Hm'].
Qed.

Lemma setdefault_lookup (k k' : string) (d : value) (m : record) :
  setdefault k d m !! k'
  = match m !! k' with
    | Some v => Some v
    | None => if decide (k = k') then Some d else None
    end.
Proof.
  unfold setdefault. destruct (m !! k) as [v|] eqn:E.
  - destruct (m !! k') as [v'|] eqn:E'; [reflexivity|].
    rewrite decide_False; [reflexivity | congruence].
  - destruct (decide (k = k')) as [<-|Hne].
    + by rewrite lookup_insert_eq, E.
    + rewrite lookup_insert_ne by exact Hne. by destruct (m !! k').
Qed.

Lemma setdefault_id (k : string) (d : value) (m : record) :
  is_Some (m !! k) -> setdefault k d m = m.
Proof. unfold setdefault. by intros [v ->]. Qed.

Lemma fill_defaults_lookup_Some (m : record) (k : string) (v : value) :
  m !! k = Some v -> fill_defaults m !! k = Some v.
Proof.
  intros H. unfold fill_defaults. cbn zeta.
  by rewrite !setdefault_lookup, H.
Qed.

Lemma fill_defaults_lookup_other (m : record) (k : string) :
  k ∉ defaulted_keys -> fill_defaults m !! k = m !! k.
Proof.
  unfold defaulted_keys. rewrite !not_elem_of_cons. intros Hk.
  unfold fill_defaults. cbn zeta. rewrite !setdefault_lookup.
  destruct (m !! k); [reflexivity|].
  repeat (rewrite decide_False by (intros <-; tauto)). reflexivity.
Qed.

Lemma fill_defaults_is_Some (m : record) (k : string) :
  k ∈ defaulted_keys -> is_Some (fill_defaults m !! k).
Proof.
  unfold defaulted_keys. intros Hk.
  unfold fill_defaults. cbn zeta. rewrite !setdefault_lookup.
  destruct (m !! k); [by eexists|].
  repeat (apply elem_of_cons in Hk as [->|Hk];
          [repeat (first [rewrite decide_True by reflexivity
                         | rewrite decide_False by discriminate]); by eexists|]).
  by apply elem_of_nil in Hk.
Qed.

Lemma fill_defaults_id (m : record) :
  (forall k, k ∈ defaulted_keys -> is_Some (m !! k)) -> fill_defaults m = m.
Proof.
  intros H. unfold fill_defaults. cbn zeta.
  repeat match goal with
    | |- context [setdefault ?k ?d m] =>
        rewrite (setdefault_id k d m)
          by (apply H; unfold defaulted_keys; rewrite !elem_of_cons; tauto)
    end.
  reflexivity.
Qed.

Lemma release_year_spec (m : record) :
  release_year m = year_of (m !! "release_date").
Proof.
  unfold release_year, year_of.
  destruct (m !! "release_date") as [d|]; [|reflexivity].
  destruct d as [|b|z|f|s|l|d]; cbn [truthy];
    try (match goal with |- (if ?c then _ else _) = _ => by destruct c end);
    try reflexivity.
  destruct s as [|c s]; reflexivity.
Qed.

Lemma roi_of_spec (m : record) (budget revenue : value) :
  m !! "budget" = Some budget -> m !! "revenue" = Some revenue ->
  roi_of m = roi_value budget revenue.
Proof.
  intros Hb Hr. unfold roi_of, roi_value, getitem. rewrite Hb, Hr. cbn [rbind].
  destruct (py_gt budget 0) as [[]|]; reflexivity.
Qed.

Lemma popularity_category_spec (m : record) (popularity : value) :
  m !! "popularity" = Some popularity ->
  popularity_category m = category_value popularity.
Proof.
  intros Hp. unfold popularity_category, category_value, getitem.
  rewrite Hp. cbn [rbind]. destruct (py_lt popularity 100) as [[]|]; reflexivity.
Qed.

Lemma impute_all_is_Some (stats : record) (fs : list string) :
  forall movie movie',
    foldM (impute stats) fs movie = Ok movie' ->
    forall f, f ∈ fs -> is_Some (imputed stats movie f).
Proof.
  induction fs as [|g fs IH]; intros movie movie' H f Hf.
  - by apply elem_of_nil in Hf.
  - apply foldM_ok_cons in H as (m1 & H1 & H2).
    apply impute_ok in H1 as (x & Hx & ->).
    destruct (decide (g = f)) as [<-|Hne]; [by rewrite Hx|].
    apply elem_of_cons in Hf as [->|Hf]; [done|].
    rewrite <- (imputed_insert_ne stats movie g f x) by exact Hne.
    by eapply IH.
Qed.

(** A record whose numeric features are all present and not [None] passes
    the imputation loop unchanged, whatever the statistics. *)
Lemma impute_all_id (stats : record) (fs : list string) (movie : record) :
  (forall f, f ∈ fs -> exists v, movie !! f = Some v /\ is_none v = false) ->
  foldM (impute stats) fs movie = Ok movie.
Proof.
  induction fs as [|g fs IH]; intros Hall; [reflexivity|].
  apply foldM_ok_cons. exists movie. split.
  - destruct (Hall g) as (v & Hv & Hnone); [left|].
    rewrite (impute_total stats movie g v).
    + by rewrite insert_id.
    + unfold imputed. by rewrite Hv, Hnone.
  - apply IH. intros f Hf. apply Hall. by right.
Qed.

Lemma cleaned_record_lookup_other (m1 : record) (rd : option value)
    (profit roi category : value) (k : string) :
  k ∉ derived_keys ->
  cleaned_record m1 rd profit roi category !! k = fill_defaults m1 !! k.
Proof.
  unfold derived_keys. rewrite !not_elem_of_cons. intros Hk.
  unfold cleaned_record. rewrite !lookup_insert_ne by (intros <-; tauto).
  reflexivity.
Qed.

Lemma cleaned_record_lookup_Some (m1 : record) (rd : option value)
    (profit roi category : value) (k : string) (v : value) :
  k ∉ derived_keys -> m1 !! k = Some v ->
  cleaned_record m1 rd profit roi category !! k = Some v.
Proof.
  intros Hk Hv. rewrite cleaned_record_lookup_other by exact Hk.
  by apply fill_defaults_lookup_Some.
Qed.

(** The loop body after the imputation, as a function of the imputed record. *)
Lemma clean_movie_eq (stats m m1 : record) (budget revenue popularity : value) :
  foldM (impute stats) numerical_features m = Ok m1 ->
  m1 !! "budget" = Some budget ->
  m1 !! "revenue" = Some revenue ->
  m1 !! "popularity" = Some popularity ->
  clean_movie stats m
  = (profit <- py_sub revenue budget ;;
     roi <- roi_value budget revenue ;;
     category <- category_value popularity ;;
     Ok (cleaned_record m1 (m1 !! "release_date") profit roi category)).
Proof.
  intros Hfold Hb Hr Hp. unfold clean_movie. rewrite Hfold. cbn [rbind].
  rewrite release_year_spec, (fill_defaults_lookup_other m1 "release_date")
    by (by apply (bool_decide_unpack _)).
  apply fill_defaults_lookup_Some in Hb, Hr, Hp.
  unfold getitem at 1 2. rewrite !lookup_insert_ne by done. rewrite Hb, Hr.
  cbn [rbind]. destruct (py_sub revenue budget) as [profit|e]; [|reflexivity].
  cbn [rbind].
  rewrite (roi_of_spec _ budget revenue)
    by (rewrite !lookup_insert_ne by done; assumption).
  destruct (roi_value budget revenue) as [roi|e]; [|reflexivity]. cbn [rbind].
  rewrite (popularity_category_spec _ popularity)
    by (rewrite !lookup_insert_ne by done; assumption).
  reflexivity.
Qed.

Lemma numerical_feature_elem (f : string) :
  f ∈ numerical_features ->
  (f ∉ derived_keys) /\ (f ∉ defaulted_keys) /\
  f <> "movie_id"%string /\ f <> "release_date"%string.
Proof.
  intros Hf. unfold numerical_features in Hf.
  repeat (apply elem_of_cons in Hf as [->|Hf];
          [repeat split; try discriminate;
           by apply (bool_decide_unpack _)|]).
  by apply elem_of_nil in Hf.
Qed.

(** What a successful run of the loop body tells about the input and the
    output record. *)
Lemma clean_movie_inv (stats m c : record) :
  clean_movie stats m = Ok c ->
  exists m1 budget revenue popularity profit roi category,
    foldM (impute stats) numerical_features m = Ok m1 /\
    imputed stats m "budget" = Some budget /\
    imputed stats m "revenue" = Some revenue /\
    imputed stats m "popularity" = Some popularity /\
    py_sub revenue budget = Ok profit /\
    roi_value budget revenue = Ok roi /\
    category_value popularity = Ok category /\
    c = cleaned_record m1 (m !! "release_date") profit roi category.
Proof.
  intros H.
  destruct (foldM (impute stats) numerical_features m) as [m1|e] eqn:Hfold;
    [|unfold clean_movie in H; rewrite Hfold in H; discriminate H].
  pose proof (impute_all_ok _ _ _ _ Hfold) as Hm1.
  pose proof (impute_all_is_Some _ _ _ _ Hfold) as Hsome.
  destruct (Hsome "budget"%string) as [budget Hb]; [by apply (bool_decide_unpack _)|].
  destruct (Hsome "revenue"%string) as [revenue Hr]; [by apply (bool_decide_unpack _)|].
  destruct (Hsome "popularity"%string) as [popularity Hp];
    [by apply (bool_decide_unpack _)|].
  rewrite (clean_movie_eq stats m m1 budget revenue popularity) in H;
    try (rewrite Hm1; rewrite decide_True by (by apply (bool_decide_unpack _));
         assumption); [|exact Hfold].
  inv_ok. exists m1, budget, revenue, popularity.
  do 3 eexists. repeat (split; [first [reflexivity | eassumption]|]).
  rewrite Hm1. rewrite decide_False; [reflexivity|].
  by apply (bool_decide_unpack _).
Qed.

(** The fields of a cleaned record. *)
Lemma clean_movie_fields (stats m c : record) :
  clean_movie stats m = Ok c ->
  (forall f, f ∈ numerical_features -> c !! f = imputed stats m f) /\
  c !! "movie_id" = m !! "movie_id" /\
  c !! "release_date" = m !! "release_date" /\
  c !! "release_year" = Some (year_of (m !! "release_date")) /\
  (forall k, k ∈ defaulted_keys -> is_Some (c !! k)) /\
  exists budget revenue popularity profit roi category,
    c !! "budget" = Some budget /\
    c !! "revenue" = Some revenue /\
    c !! "popularity" = Some popularity /\
    py_sub revenue budget = Ok profit /\ c !! "profit" = Some profit /\
    roi_value budget revenue = Ok roi /\ c !! "roi" = Some roi /\
    category_value popularity = Ok category /\
    c !! "popularity_category" = Some category.
Proof.
  intros H.
  destruct (clean_movie_inv _ _ _ H)
    as (m1 & budget & revenue & popularity & profit & roi & category
        & Hfold & Hb & Hr & Hp & Hprofit & Hroi & Hcat & ->).
  pose proof (impute_all_ok _ _ _ _ Hfold) as Hm1.
  assert (Hnum : forall f, f ∈ numerical_features ->
            cleaned_record m1 (m !! "release_date") profit roi category !! f
            = imputed stats m f).
  { intros f Hf. destruct (numerical_feature_elem f Hf) as (Hd & Hdef & _).
    rewrite cleaned_record_lookup_other, fill_defaults_lookup_other by assumption.
    rewrite Hm1. by rewrite decide_True. }
  split; [exact Hnum|].
  split.
  { rewrite cleaned_record_lookup_other, fill_defaults_lookup_other
      by (by apply (bool_decide_unpack _)).
    rewrite Hm1. by rewrite decide_False by (by apply (bool_decide_unpack _)). }
  split.
  { rewrite cleaned_record_lookup_other, fill_defaults_lookup_other
      by (by apply (bool_decide_unpack _)).
    rewrite Hm1. by rewrite decide_False by (by apply (bool_decide_unpack _)). }
  split.
  { unfold cleaned_record. rewrite !lookup_insert_ne by done.
    apply lookup_insert_eq. }
  split.
  { intros k Hk. rewrite cleaned_record_lookup_other.
    - by apply fill_defaults_is_Some.
    - unfold defaulted_keys in Hk.
      repeat (apply elem_of_cons in Hk as [->|Hk];
              [by apply (bool_decide_unpack _)|]).
      by apply elem_of_nil in Hk. }
  exists budget, revenue, popularity, profit, roi, category.
  rewrite !Hnum by (by apply (bool_decide_unpack _)).
  repeat (split; [assumption|]).
  unfold cleaned_record.
  split; [by rewrite !lookup_insert_ne by done; rewrite lookup_insert_eq|].
  split; [assumption|].
  split; [by rewrite !lookup_insert_ne by done; rewrite lookup_insert_eq|].
  split; [assumption|]. apply lookup_insert_eq.
Qed.

(** The loop body returns exactly when the imputation finds a value for
    every numeric feature and the three derived computations return. *)
Lemma clean_movie_total (stats m : record) (budget revenue popularity : value) :
  (forall f, f ∈ numerical_features -> is_Some (imputed stats m f)) ->
  imputed stats m "budget" = Some budget ->
  imputed stats m "revenue" = Some revenue ->
  imputed stats m "popularity" = Some popularity ->
  is_ok (py_sub revenue budget) ->
  is_ok (roi_value budget revenue) ->
  is_ok (category_value popularity) ->
  is_ok (clean_movie stats m).
Proof.
  intros Hall Hb Hr Hp [profit Hprofit] [roi Hroi] [category Hcat].
  destruct (impute_all_total stats numerical_features m Hall) as [m1 Hfold].
  pose proof (impute_all_ok _ _ _ _ Hfold) as Hm1.
  rewrite (clean_movie_eq stats m m1 budget revenue popularity);
    try (rewrite Hm1; rewrite decide_True by (by apply (bool_decide_unpack _));
         assumption); [|exact Hfold].
  rewrite Hprofit, Hroi, Hcat. by eexists.
Qed.

Lemma imputed_other_key (stats m : record) (k f : string) (d : option value) :
  k <> f -> imputed stats (partial_alter (fun _ => d) k m) f = imputed stats m f.
Proof. intros Hne. unfold imputed. by rewrite lookup_partial_alter_ne. Qed.

(** Changing, adding or removing a key that is no numeric feature does not
    make the loop body raise. *)
Lemma clean_movie_total_other_key (stats m : record) (k : string) (d : option value) :
  k ∉ numerical_features ->
  is_ok (clean_movie stats m) ->
  is_ok (clean_movie stats (partial_alter (fun _ => d) k m)).
Proof.
  intros Hk [c Hc].
  destruct (clean_movie_inv _ _ _ Hc)
    as (m1 & budget & revenue & popularity & profit & roi & category
        & Hfold & Hb & Hr & Hp & Hprofit & Hroi & Hcat & _).
  pose proof (impute_all_is_Some _ _ _ _ Hfold) as Hsome.
  assert (Hne : forall f, f ∈ numerical_features -> k <> f) by (intros f Hf ->; done).
  apply (clean_movie_total _ _ budget revenue popularity).
  - intros f Hf. rewrite imputed_other_key by auto. auto.
  - rewrite imputed_other_key; [exact Hb | by apply Hne, (bool_decide_unpack _)].
  - rewrite imputed_other_key; [exact Hr | by apply Hne, (bool_decide_unpack _)].
  - rewrite imputed_other_key; [exact Hp | by apply Hne, (bool_decide_unpack _)].
  - by eexists.
  - by eexists.
  - by eexists.
Qed.

(** ** Cleaning: the record set *)

Lemma Forall2_filter_both {A B : Type} (R : A -> B -> Prop)
    (P : A -> Prop) (Q : B -> Prop)
    `{!forall a, Decision (P a)} `{!forall b, Decision (Q b)}
    (l : list A) (l' : list B) :
  Forall2 R l l' -> (forall a b, R a b -> P a <-> Q b) ->
  Forall2 R (filter P l) (filter Q l').
Proof.
  intros HR HPQ. induction HR as [|a b l l' Hab _ IH]; [constructor|].
  rewrite !filter_cons. specialize (HPQ a b Hab).
  destruct (decide (P a)), (decide (Q b)); try tauto.
  by constructor.
Qed.

Lemma first_by_Forall2 {A B : Type} (R : A -> B -> Prop)
    (keyA : A -> Z) (keyB : B -> Z) (l : list A) (l' : list B) :
  Forall2 R l l' -> (forall a b, R a b -> keyA a = keyB b) ->
  Forall2 R (first_by keyA l) (first_by keyB l').
Proof.
  intros HR Hkey. induction HR as [|a b l l' Hab _ IH]; [constructor|].
  cbn [first_by]. constructor; [exact Hab|].
  apply Forall2_filter_both; [exact IH|].
  intros a' b' Hab'. by rewrite (Hkey a b Hab), (Hkey a' b' Hab').
Qed.

Section Cleaning.

Variable float_of_str : string -> option float.

Local Abbreviation stats_of := (calculate_statistics float_of_str).
Local Abbreviation clean := (clean_transform_data float_of_str).

(** The cleaning, when it returns on a non-empty record set: the statistics
    were computed, every record has an identifier, and the output lists the
    cleaned first occurrences in order. *)
Lemma clean_transform_data_inv (movies out : list record) :
  clean movies = Ok out -> movies <> [] ->
  exists stats,
    stats_of movies = Ok stats /\
    Forall has_id movies /\
    Forall2 (fun m c => clean_movie stats m = Ok c) (first_by id_of movies) out.
Proof.
  intros H Hne. unfold clean_transform_data in H.
  destruct movies as [|m0 movies]; [done|].
  apply rbind_ok in H as (stats & Hstats & H).
  apply rbind_ok in H as (cleaned & Hcleaned & H).
  apply mapM_ok in Hcleaned. apply unique_by_id_inv in H as [Hids ->].
  exists stats. split; [exact Hstats|].
  assert (Hsame : forall m c, clean_movie stats m = Ok c ->
                          movie_id_of c = movie_id_of m).
  { intros m c Hc. apply movie_id_of_same.
    by destruct (clean_movie_fields _ _ _ Hc) as (_ & Hid & _). }
  split.
  - clear -Hcleaned Hids Hsame. induction Hcleaned as [|m c l l' Hc _ IH].
    + constructor.
    + apply Forall_cons in Hids as [[z Hz] Hids]. constructor; [|by apply IH].
      exists z. by rewrite <- (Hsame m c Hc).
  - apply first_by_Forall2; [exact Hcleaned|].
    intros m c Hc. unfold id_of. by rewrite (Hsame m c Hc).
Qed.

Lemma clean_nil : clean [] = Ok [].
Proof. reflexivity. Qed.

Lemma clean_nil_inv (out : list record) : clean [] = Ok out -> out = [].
Proof. intros H. by apply Ok_inj in H. Qed.

End Cleaning.

(** ** Comparisons *)




(** ** Cleaning: the claims *)

Section CleaningClaims.

Variable float_of_str : string -> option float.

Local Abbreviation stats_of := (calculate_statistics float_of_str).
Local Abbreviation clean := (clean_transform_data float_of_str).

(** C3: in the output of the cleaning, every record is the cleaned first
    occurrence of its identifier, and for each of the six numeric features a
    value that is present and not null in the input record, whatever number
    it is, is the value of the output record; a null or absent value is
    replaced by the feature's statistic. *)
Theorem clean_keeps_present_values (movies out : list record) :
  clean movies = Ok out ->
  exists stats,
    (movies <> [] -> stats_of movies = Ok stats) /\
    Forall2
      (fun movie cleaned =>
         forall f, f ∈ numerical_features ->
           (forall v, movie !! f = Some v -> is_none v = false ->
                      cleaned !! f = Some v) /\
           (movie !! f = None \/ movie !! f = Some VNone ->
            cleaned !! f = stats !! f /\
            exists s, stats !! f = Some s /\ is_none s = false))
      (first_by id_of movies) out.
Proof.
  intros H. destruct (decide (movies = [])) as [->|Hne].
  { apply clean_nil_inv in H as ->. exists ∅. split; [done | constructor]. }
  destruct (clean_transform_data_inv _ _ _ H Hne) as (stats & Hstats & _ & Hall).
  exists stats. split; [done|].
  eapply Forall2_impl; [exact Hall|]. cbn beta. intros movie cleaned Hc f Hf.
  destruct (clean_movie_fields _ _ _ Hc) as (Hnum & _).
  rewrite (Hnum f Hf). unfold imputed. split.
  - intros v -> ->. reflexivity.
  - destruct (calculate_statistics_ok _ _ _ Hstats f Hf) as (vals & _ & Hs).
    intros Hmiss. split.
    + by destruct Hmiss as [-> | ->].
    + eexists. split; [exact Hs | apply feature_stat_not_none].
Qed.


(** C8: in the output of the cleaning, [release_date] is the input record's
    and, for a record whose release date is absent, not a string or an ASCII
    string, [release_year] is the year [strptime] reads off it with the
    format [%Y-%m-%d] ("2020-05-01" gives 2020); it is [None] when the date
    is absent, empty, not a string or not parsed.  The release date raises
    nothing: a record whose cleaning returns is also cleaned with any other
    release date, or without one. *)
Theorem clean_release_year (movies out : list record) :
  clean movies = Ok out ->
  Forall2
    (fun movie cleaned =>
       cleaned !! "release_date" = movie !! "release_date" /\
       (ascii_date movie = true ->
        cleaned !! "release_year" = Some (year_of (movie !! "release_date"))))
    (first_by id_of movies) out /\
  (forall s y m d, strptime s = Some (y, m, d) -> year_of (Some (VStr s)) = VInt y) /\
  (forall s, strptime s = None -> year_of (Some (VStr s)) = VNone) /\
  (forall v, (forall s, v <> VStr s) -> year_of (Some v) = VNone) /\
  year_of None = VNone /\
  year_of (Some (VStr "")) = VNone /\
  year_of (Some (VStr "2020-05-01")) = VInt 2020 /\
  (forall stats movie,
     is_ok (clean_movie stats movie) ->
     (forall d, is_ok (clean_movie stats (<["release_date" := d]> movie))) /\
     is_ok (clean_movie stats (delete "release_date" movie))).
Proof.
  intros H. split.
  { destruct (decide (movies = [])) as [->|Hne].
    { apply clean_nil_inv in H as ->. constructor. }
    destruct (clean_transform_data_inv _ _ _ H Hne) as (stats & _ & _ & Hall).
    eapply Forall2_impl; [exact Hall|]. cbn beta. intros movie cleaned Hc.
    by destruct (clean_movie_fields _ _ _ Hc) as (_ & _ & Hrd & Hry & _). }
  split. { intros s y m d Hs. cbn [year_of]. by rewrite Hs. }
  split. { intros s Hs. cbn [year_of]. by rewrite Hs. }
  split. { intros v Hv. destruct v; try reflexivity. by destruct (Hv s). }
  split; [reflexivity|]. split; [reflexivity|]. split; [reflexivity|].
  intros stats movie Hok. split.
  - intros d.
    apply (clean_movie_total_other_key stats movie "release_date" (Some d));
      [by apply (bool_decide_unpack _) | exact Hok].
  - apply (clean_movie_total_other_key stats movie "release_date" None);
      [by apply (bool_decide_unpack _) | exact Hok].
Qed.

End CleaningClaims.

(** ** Idempotence of the cleaning *)

Lemma mapM_ok_elem {A B : Type} (f : A -> result B) (l : list A) (l' : list B)
    (x : A) :
  mapM f l = Ok l' -> x ∈ l -> is_ok (f x).
Proof.
  revert l'. induction l as [|a l IH]; intros l' H Hx.
  - by apply elem_of_nil in Hx.
  - cbn [mapM] in H. apply rbind_ok in H as (b & Hb & H).
    apply rbind_ok in H as (bs & Hbs & _).
    apply elem_of_cons in Hx as [->|Hx]; [by exists b | by eapply IH].
Qed.

Lemma present_values_elem (f : string) (movies : list record) (v : value) :
  v ∈ present_values f movies <->
  exists m, m ∈ movies /\ m !! f = Some v /\ is_none v = false.
Proof.
  unfold present_values. rewrite list_elem_of_bind. unfold present1.
  split.
  - intros (m & Hv & Hm). exists m. split; [exact Hm|].
    destruct (m !! f) as [w|]; [|by apply elem_of_nil in Hv].
    destruct (is_none w) eqn:E; [by apply elem_of_nil in Hv|].
    apply list_elem_of_singleton in Hv as ->. done.
  - intros (m & Hm & Hv & Hnone). exists m. split; [|exact Hm].
    rewrite Hv, Hnone. by apply list_elem_of_singleton.
Qed.

Lemma is_cleaned_fixpoint (stats c : record) :
  is_cleaned c -> clean_movie stats c = Ok c.
Proof.
  intros (Hnum & Hdef & Hry
          & budget & revenue & popularity & profit & roi & category
          & Hb & Hr & Hp & Hprofit & Hprofit' & Hroi & Hroi' & Hcat & Hcat').
  rewrite (clean_movie_eq stats c c budget revenue popularity)
    by (try apply impute_all_id; assumption).
  rewrite Hprofit, Hroi, Hcat. cbn [rbind]. f_equal.
  unfold cleaned_record. rewrite (fill_defaults_id c Hdef).
  rewrite (insert_id c "release_year" _ Hry).
  rewrite (insert_id c "profit" _ Hprofit').
  rewrite (insert_id c "roi" _ Hroi').
  by rewrite (insert_id c "popularity_category" _ Hcat').
Qed.

(** The loop body produces cleaned records, provided the statistics hold a
    value that is not [None] for each numeric feature. *)
Lemma clean_movie_is_cleaned (stats m c : record) :
  (forall f, f ∈ numerical_features ->
     exists s, stats !! f = Some s /\ is_none s = false) ->
  clean_movie stats m = Ok c -> is_cleaned c.
Proof.
  intros Hstats Hc.
  destruct (clean_movie_fields _ _ _ Hc) as (Hnum & _ & Hrd & Hry & Hdef & Hrest).
  split; [|split; [exact Hdef | split; [by rewrite Hrd | exact Hrest]]].
  intros f Hf. rewrite (Hnum f Hf). unfold imputed.
  destruct (m !! f) as [v|]; [destruct (is_none v) eqn:E|]; eauto.
Qed.

Section Idempotence.

Variable float_of_str : string -> option float.

Local Abbreviation to_float := (py_float float_of_str).
Local Abbreviation stats_of := (calculate_statistics float_of_str).
Local Abbreviation clean := (clean_transform_data float_of_str).

(** The cleaning maps a list of cleaned records with distinct identifiers
    and coercible numeric values to itself. *)
Lemma clean_fixpoint (l : list record) :
  Forall is_cleaned l ->
  (forall c f v, c ∈ l -> f ∈ numerical_features -> c !! f = Some v ->
                 is_ok (to_float v)) ->
  Forall has_id l -> NoDup (id_of <$> l) ->
  clean l = Ok l.
Proof.
  intros Hcl Hfl Hid Hnd. destruct l as [|c0 l]; [reflexivity|].
  unfold clean_transform_data.
  destruct (calculate_statistics_total float_of_str (c0 :: l)) as [stats Hstats].
  { intros f Hf. unfold observed. apply mapM_total, Forall_forall.
    intros v Hv. apply present_values_elem in Hv as (c & Hc & Hv & _).
    by eapply Hfl. }
  rewrite Hstats. cbn [rbind].
  assert (Hmap : mapM (clean_movie stats) (c0 :: l) = Ok (c0 :: l)).
  { apply mapM_ok, Forall_Forall2_diag.
    eapply Forall_impl; [exact Hcl|]. intros c. apply is_cleaned_fixpoint. }
  rewrite Hmap. cbn [rbind].
  rewrite unique_by_id_spec by exact Hid. f_equal. by apply first_by_idemp.
Qed.

Lemma observed_elem (f : string) (movies : list record) (vals : list float)
    (m : record) (v : value) :
  observed float_of_str f movies = Ok vals ->
  m ∈ movies -> m !! f = Some v -> is_none v = false -> is_ok (to_float v).
Proof.
  intros Hobs Hm Hv Hnone. eapply mapM_ok_elem; [exact Hobs|].
  apply present_values_elem. eauto.
Qed.

(** C9: the cleaning is idempotent: cleaning the output of a cleaning
    returns that output, and a cleaning that raises is not changed by a
    second pass either. *)
Theorem clean_idempotent (movies : list record) :
  (out <- clean_transform_data float_of_str movies ;;
   clean_transform_data float_of_str out)
  = clean_transform_data float_of_str movies.
Proof.
  destruct (clean movies) as [out|e] eqn:H; cbn [rbind]; [|reflexivity].
  destruct (decide (movies = [])) as [->|Hne].
  { by apply clean_nil_inv in H as ->. }
  destruct (clean_transform_data_inv _ _ _ H Hne) as (stats & Hstats & Hids & Hall).
  pose proof (calculate_statistics_ok _ _ _ Hstats) as Hstat.
  assert (Hgood : forall f, f ∈ numerical_features ->
                    exists s, stats !! f = Some s /\ is_none s = false).
  { intros f Hf. destruct (Hstat f Hf) as (vals & _ & Hs).
    eexists. split; [exact Hs | apply feature_stat_not_none]. }
  assert (Hsame : id_of <$> out = id_of <$> first_by id_of movies).
  { clear -Hall. induction Hall as [|m c l l' Hc _ IH]; [reflexivity|].
    rewrite !fmap_cons, IH. f_equal. unfold id_of.
    destruct (clean_movie_fields _ _ _ Hc) as (_ & Hid & _).
    by rewrite (movie_id_of_same _ _ Hid). }
  apply clean_fixpoint.
  - apply (Forall2_Forall_r _ _ _ _ Hall), Forall_true.
    intros m c Hc. by eapply clean_movie_is_cleaned.
  - intros c f v Hc Hf Hv.
    apply list_elem_of_lookup in Hc as [i Hi].
    destruct (Forall2_lookup_r _ _ _ _ _ Hall Hi) as (m & Hm & Hmc).
    destruct (clean_movie_fields _ _ _ Hmc) as (Hnum & _).
    rewrite (Hnum f Hf) in Hv. unfold imputed in Hv.
    destruct (Hstat f Hf) as (vals & Hvals & Hs).
    assert (Hstat_ok : stats !! f = Some v -> is_ok (to_float v)).
    { rewrite Hs. intros [= <-]. apply feature_stat_float. }
    destruct (m !! f) as [w|] eqn:Hw; [|by apply Hstat_ok].
    destruct (is_none w) eqn:Hnone; [by apply Hstat_ok|].
    injection Hv as ->. eapply observed_elem; [exact Hvals | | exact Hw | exact Hnone].
    apply (first_by_sublist id_of). by eapply list_elem_of_lookup_2.
  - apply Forall_forall. intros c Hc.
    apply list_elem_of_lookup in Hc as [i Hi].
    destruct (Forall2_lookup_r _ _ _ _ _ Hall Hi) as (m & Hm & Hmc).
    destruct (clean_movie_fields _ _ _ Hmc) as (_ & Hid & _).
    rewrite Forall_forall in Hids.
    destruct (Hids m) as [z Hz].
    { apply (first_by_sublist id_of). by eapply list_elem_of_lookup_2. }
    exists z. by rewrite (movie_id_of_same _ _ Hid).
  - rewrite Hsame. apply first_by_NoDup.
Qed.

End Idempotence.

(** ** Extraction *)

Lemma first_by_filter_seen (A : Type) (key : A -> Z) (seen : gset Z) (x : A)
    (l : list A) :
  filter (fun y => key y ∉ seen) (first_by key (x :: l))
  = if decide (key x ∈ seen)
    then filter (fun y => key y ∉ seen) (first_by key l)
    else x :: filter (fun y => key y ∉ {[key x]} ∪ seen) (first_by key l).
Proof.
  cbn [first_by]. rewrite filter_cons, list_filter_filter.
  destruct (decide (key x ∈ seen)) as [Hin|Hnin].
  - rewrite decide_False by tauto.
    apply list_filter_iff. intros y. split; [tauto|].
    intros Hy. split; [exact Hy|]. congruence.
  - rewrite decide_True by exact Hnin. f_equal.
    apply list_filter_iff. intros y.
    rewrite not_elem_of_union, not_elem_of_singleton. tauto.
Qed.

Lemma first_by_app {A : Type} (key : A -> Z) (l1 l2 : list A) :
  first_by key (l1 ++ l2)
  = first_by key l1
    ++ filter (fun y => key y ∉ (list_to_set (key <$> l1) : gset Z)) (first_by key l2).
Proof.
  induction l1 as [|x l1 IH].
  - cbn. symmetry. apply filter_all. intros y _. apply not_elem_of_empty.
  - cbn [app first_by]. rewrite IH, filter_app, list_filter_filter. do 2 f_equal.
    apply list_filter_iff. intros y.
    rewrite fmap_cons, list_to_set_cons, not_elem_of_union, not_elem_of_singleton.
    tauto.
Qed.

Section Extraction.

Variable py_str : value -> string.
Variable api_page : Z -> result value.

Local Abbreviation element := (fun m => movie_element py_str m (raw_id_of m)).
Local Abbreviation scan := (scan_results py_str).
Local Abbreviation results_of := (page_results api_page).

Lemma raw_id_raw_id_of (m : value) : is_ok (raw_id m) -> raw_id m = Ok (raw_id_of m).
Proof. intros [z Hz]. unfold raw_id_of. by rewrite Hz. Qed.

(** One page without a malformed entry: the entries whose identifier is
    new are appended in order, and all identifiers become seen. *)
Lemma scan_results_spec (results : list value) :
  Forall (fun m => is_ok (raw_id m)) results ->
  forall (st : fetch_state) (elems : list record),
    mapM element
      (filter (fun m => raw_id_of m ∉ movie_ids_seen st) (first_by raw_id_of results))
    = Ok elems ->
    exists st',
      scan results st = (st', None) /\
      movies_list st' = movies_list st ++ elems /\
      movie_ids_seen st'
      = movie_ids_seen st ∪ list_to_set (raw_id_of <$> results).
Proof.
  induction 1 as [|m results Hm _ IH]; intros st elems Helems.
  - cbn in Helems. apply Ok_inj in Helems as <-.
    exists st. rewrite app_nil_r. repeat split. cbn. set_solver.
  - rewrite first_by_filter_seen in Helems. cbn [scan_results].
    fold (raw_id m). rewrite (raw_id_raw_id_of m Hm).
    rewrite fmap_cons, list_to_set_cons.
    destruct (decide (raw_id_of m ∈ movie_ids_seen st)) as [Hin|Hnin].
    + destruct (IH st elems Helems) as (st' & Hscan & Hml & Hseen).
      exists st'. repeat split; [exact Hscan | exact Hml |].
      rewrite Hseen. set_solver.
    + cbn [mapM] in Helems. apply rbind_ok in Helems as (e & He & Helems).
      apply rbind_ok in Helems as (elems' & Helems' & Heq).
      apply Ok_inj in Heq as <-. rewrite He.
      destruct (IH {| movies_list := movies_list st ++ [e];
                      movie_ids_seen := {[raw_id_of m]} ∪ movie_ids_seen st |}
                   elems' Helems') as (st' & Hscan & Hml & Hseen).
      exists st'. repeat split; [exact Hscan | |].
      * rewrite Hml. cbn [movies_list]. by rewrite <- app_assoc.
      * rewrite Hseen. cbn [movie_ids_seen]. set_solver.
Qed.

(** The loop over the pages [pages], numbered from [page] on, all fetched and
    well-formed; the loop ends after them because the page budget is used up
    or because the next page fails. *)
Lemma fetch_pages_spec (pages : list (list value)) :
  forall (todo : nat) (page : Z) (st : fetch_state) (elems : list record),
    (forall (i : nat) results,
       pages !! i = Some results -> results_of (page + Z.of_nat i) = Ok results) ->
    (todo = length pages \/
     (length pages < todo)%nat /\ page + Z.of_nat (length pages) <> 1 /\
     exists e, results_of (page + Z.of_nat (length pages)) = Raise e) ->
    Forall (fun m => is_ok (raw_id m)) (concat pages) ->
    mapM element
      (filter (fun m => raw_id_of m ∉ movie_ids_seen st)
              (first_by raw_id_of (concat pages)))
    = Ok elems ->
    fetch_pages py_str api_page todo page st = Ok (movies_list st ++ elems).
Proof.
  induction pages as [|results pages IH]; intros todo page st elems Hpages Hstop Hids Helems.
  - cbn in Helems. apply Ok_inj in Helems as <-. rewrite app_nil_r.
    destruct Hstop as [->|(Hlt & Hne & e & He)]; [reflexivity|].
    destruct todo as [|todo]; [reflexivity|]. cbn [fetch_pages].
    cbn [length] in He, Hne. rewrite Z.add_0_r in He, Hne.
    unfold page_results in He. rewrite He.
    by destruct (Z.eqb_spec page 1).
  - cbn [concat] in Hids, Helems. apply Forall_app in Hids as [Hids1 Hids2].
    rewrite first_by_app, filter_app, list_filter_filter in Helems.
    apply mapM_app in Helems as (e1 & e2 & He1 & He2 & ->).
    destruct (scan_results_spec results Hids1 st e1 He1) as (st' & Hscan & Hml & Hseen).
    destruct todo as [|todo].
    { destruct Hstop as [Hstop|[Hstop _]]; cbn [length] in Hstop; lia. }
    cbn [fetch_pages].
    pose proof (Hpages 0%nat results eq_refl) as H0. rewrite Z.add_0_r in H0.
    unfold page_results in H0. rewrite H0, Hscan.
    rewrite (IH todo (page + 1) st' e2).
    + by rewrite Hml, app_assoc.
    + intros i r Hi. rewrite <- (Hpages (S i) r Hi). f_equal. lia.
    + cbn [length] in Hstop.
      destruct Hstop as [Hstop|(Hlt & Hne & e & He)]; [left; lia|right].
      split; [lia|]. split; [lia|]. exists e. rewrite <- He. f_equal. lia.
    + exact Hids2.
    + rewrite <- He2. f_equal. apply list_filter_iff. intros m.
      rewrite Hseen, not_elem_of_union. tauto.
Qed.

(** C7: whenever the extractor has fetched the listing pages [pages] (all
    the pages asked for, or the pages before the first failing one) and every
    entry has an identifier, its output is built from the first occurrences
    of the identifiers in page order: one record per distinct identifier,
    equal to the record built from that identifier's first entry; later
    entries with a seen identifier leave no trace. *)
Theorem fetch_movies_first_occurrences (max_pages : Z) (pages : list (list value)) :
  (forall (i : nat) results,
     pages !! i = Some results -> results_of (1 + Z.of_nat i) = Ok results) ->
  (Z.to_nat max_pages = length pages \/
   (0 < length pages < Z.to_nat max_pages)%nat /\
   exists e, results_of (1 + Z.of_nat (length pages)) = Raise e) ->
  Forall (fun m => is_ok (raw_id m)) (concat pages) ->
  Forall (fun m => is_ok (element m)) (first_by raw_id_of (concat pages)) ->
  exists out,
    fetch_movies py_str api_page max_pages = Ok out /\
    Forall2 (fun m r => element m = Ok r) (first_by raw_id_of (concat pages)) out /\
    id_of <$> out = first_occurrences (raw_id_of <$> concat pages) /\
    NoDup (id_of <$> out) /\
    (forall k, k ∈ id_of <$> out <-> k ∈ raw_id_of <$> concat pages).
Proof.
  intros Hpages Hstop Hids Helems.
  destruct (mapM_total _ _ Helems) as [out Hout].
  exists out.
  assert (Hfetch : fetch_movies py_str api_page max_pages = Ok out).
  { unfold fetch_movies.
    rewrite (fetch_pages_spec pages _ 1 _ out); [reflexivity | exact Hpages | | exact Hids |].
    - destruct Hstop as [->|(Hlt & e & He)]; [by left|right].
      split; [lia|]. split; [lia|]. eauto.
    - cbn [movie_ids_seen]. rewrite filter_all; [exact Hout|].
      intros m _. apply not_elem_of_empty. }
  apply mapM_ok in Hout.
  assert (Hsame : id_of <$> out = raw_id_of <$> first_by raw_id_of (concat pages)).
  { clear -Hout. induction Hout as [|m r l l' Hr _ IH]; [reflexivity|].
    rewrite !fmap_cons, IH. f_equal.
    unfold movie_element in Hr. inv_ok. unfold id_of, movie_id_of, getitem.
    by repeat (rewrite lookup_insert_ne by done); rewrite lookup_insert_eq. }
  split; [exact Hfetch|]. split; [exact Hout|].
  split; [by rewrite Hsame, first_by_fmap|].
  split; [rewrite Hsame; apply first_by_NoDup|].
  intros k. rewrite Hsame. apply first_by_elem.
Qed.

End Extraction.

(** ** The handler *)

Lemma append_inv_head (p x y : string) : p +:+ x = p +:+ y -> x = y.
Proof.
  induction p as [|c p IH]; cbn [String.append]; [done|].
  intros H. injection H as H. by apply IH.
Qed.

Section Handler.

Variable float_of_str : string -> option float.
Variable py_str : value -> string.
Variable api_page : Z -> result value.
Variable api_detail : Z -> result value.
Variable cfg : config.
Variable date_suffix : string.
Variable csv_text : list record -> string.
Variable put_object : put_request -> result unit.

Local Abbreviation handler :=
  (lambda_handler float_of_str py_str api_page api_detail cfg date_suffix
     csv_text put_object).

(** C10 (as amended): on a successful run the payload's destination is
    [s3://<bucket>/<S3_FILE_NAME>], built from the configured file name,
    while the one object written has the dated key
    [daily_outputs/movies_data_<date>.csv] in the configured bucket.  The
    destination is the [s3://] address of the written object exactly when
    the configured file name is that dated key; with the default file name
    it never is. *)
Theorem handler_reports_static_destination :
  statusCode handler.1 = 200 ->
  exists (n : nat) (written : put_request),
    let destination := "s3://" +:+ S3_BUCKET_NAME cfg +:+ "/" +:+ S3_FILE_NAME cfg in
    let address := "s3://" +:+ Bucket written +:+ "/" +:+ Key written in
    body handler.1 = Success n destination /\
    handler.2 = [written] /\
    Bucket written = S3_BUCKET_NAME cfg /\
    Key written = "daily_outputs/movies_data_" +:+ date_suffix +:+ ".csv" /\
    (destination = address <-> S3_FILE_NAME cfg = Key written) /\
    (S3_FILE_NAME cfg = default_file_name -> destination <> address).
Proof.
  unfold lambda_handler.
  destruct (run_pipeline _ _ _ _ _ _ _ _) as [[cleaned written]|e] eqn:Hrun;
    cbn [fst snd statusCode body]; [intros _|discriminate].
  exists (length cleaned), written. cbn zeta.
  assert (Hw : written
               = {| Bucket := S3_BUCKET_NAME cfg;
                    Key := "daily_outputs/movies_data_" +:+ date_suffix +:+ ".csv";
                    Body := csv_text cleaned |}).
  { unfold run_pipeline in Hrun. apply rbind_ok in Hrun as (listing & _ & Hrun).
    destruct listing as [|m listing]; [discriminate Hrun|].
    apply rbind_ok in Hrun as (enriched & _ & Hrun).
    apply rbind_ok in Hrun as (cleaned' & _ & Hrun).
    apply rbind_ok in Hrun as (written' & Hup & Hrun).
    apply Ok_inj in Hrun. injection Hrun as -> ->.
    unfold upload_to_s3 in Hup. apply rbind_ok in Hup as (u & _ & Hup).
    by apply Ok_inj in Hup. }
  subst written. cbn [Bucket Key].
  split; [reflexivity|]. split; [reflexivity|]. split; [reflexivity|].
  split; [reflexivity|]. split.
  - split.
    + intros Heq. apply (append_inv_head "s3://") in Heq.
      by apply append_inv_head, (append_inv_head "/") in Heq.
    + by intros ->.
  - intros Hname Heq. rewrite Hname in Heq.
    apply (append_inv_head "s3://") in Heq.
    apply append_inv_head in Heq. discriminate Heq.
Qed.

End Handler.

(** ** The claims on the sample inputs *)

Lemma sample_cleaning_returns :
  is_ok (clean_transform_data sample_float_of_str sample_enriched_movies).
Proof.
  assert (H : match clean_transform_data sample_float_of_str sample_enriched_movies with
              | Ok _ => true
              | Raise _ => false
              end = true) by (vm_compute; reflexivity).
  destruct (clean_transform_data _ _) as [out|e]; [by exists out | discriminate H].
Defined.

(** What the cleaning makes of the sample records: present budgets stay,
    also the zeros; the null budget becomes the median 20.0; the roi is
    infinite on a zero budget with a revenue, 0 on a zero budget without
    one, a quotient on a positive budget; the years are 2020 or [None]. *)
Example sample_cleaning_values :
  let cleaned := clean_transform_data sample_float_of_str sample_enriched_movies in
  field_of cleaned 0 "budget" = Some (VInt 0) /\
  field_of cleaned 2 "budget" = Some (VFloat 20) /\
  field_of cleaned 4 "revenue" = Some (VInt (-3)) /\
  field_of cleaned 0 "roi" = Some (VFloat infinity) /\
  field_of cleaned 1 "roi" = Some (VFloat 0.5) /\
  field_of cleaned 2 "roi" = Some (VFloat (-1)) /\
  field_of cleaned 3 "roi" = Some (VInt 0) /\
  field_of cleaned 0 "release_year" = Some (VInt 2020) /\
  field_of cleaned 1 "release_year" = Some VNone /\
  field_of cleaned 2 "release_year" = Some VNone /\
  field_of cleaned 3 "release_year" = Some VNone /\
  field_of cleaned 4 "release_year" = Some VNone /\
  field_of cleaned 0 "popularity_category" = Some (VStr "Low") /\
  field_of cleaned 1 "popularity_category" = Some (VStr "Medium") /\
  field_of cleaned 2 "popularity_category" = Some (VStr "High").
Proof. cbn zeta. repeat split; vm_compute; reflexivity. Qed.

Lemma clean_keeps_present_values_witness :
  exists out,
    clean_transform_data sample_float_of_str sample_enriched_movies = Ok out /\
    exists stats,
      (sample_enriched_movies <> [] ->
       calculate_statistics sample_float_of_str sample_enriched_movies = Ok stats) /\
      Forall2
        (fun movie cleaned =>
           forall f, f ∈ numerical_features ->
             (forall v, movie !! f = Some v -> is_none v = false ->
                        cleaned !! f = Some v) /\
             (movie !! f = None \/ movie !! f = Some VNone ->
              cleaned !! f = stats !! f /\
              exists s, stats !! f = Some s /\ is_none s = false))
        (first_by id_of sample_enriched_movies) out.
Proof.
  destruct sample_cleaning_returns as [out Hout]. exists out.
  split; [exact Hout|].
  exact (clean_keeps_present_values sample_float_of_str sample_enriched_movies out Hout).
Defined.


Lemma Forall2_discharge {A B : Type} (P : A -> Prop) (Q : A -> B -> Prop)
    (l : list A) (k : list B) :
  Forall P l -> Forall2 (fun x y => P x -> Q x y) l k -> Forall2 Q l k.
Proof.
  intros Hl Hall. induction Hall as [|x y l k Hxy _ IH]; [constructor|].
  apply Forall_cons in Hl as [Hx Hl]. constructor; [exact (Hxy Hx) | exact (IH Hl)].
Qed.

Lemma sample_dates_ascii :
  Forall (fun movie => ascii_date movie = true)
    (first_by id_of sample_enriched_movies).
Proof.
  apply Forall_forall. intros movie Hin.
  apply (first_by_sublist id_of) in Hin. revert movie Hin. apply Forall_forall.
  repeat constructor.
Qed.

Lemma clean_release_year_witness :
  exists out,
    clean_transform_data sample_float_of_str sample_enriched_movies = Ok out /\
    Forall (fun movie => ascii_date movie = true)
      (first_by id_of sample_enriched_movies) /\
    Forall2
      (fun movie cleaned =>
         cleaned !! "release_date" = movie !! "release_date" /\
         cleaned !! "release_year" = Some (year_of (movie !! "release_date")))
      (first_by id_of sample_enriched_movies) out.
Proof.
  destruct sample_cleaning_returns as [out Hout]. exists out.
  split; [exact Hout|]. split; [exact sample_dates_ascii|].
  apply (Forall2_discharge (fun movie => ascii_date movie = true));
    [exact sample_dates_ascii|].
  eapply Forall2_impl;
    [exact (proj1 (clean_release_year sample_float_of_str sample_enriched_movies
                     out Hout))|].
  intros movie cleaned [Hd Hy] Hm. split; [exact Hd | exact (Hy Hm)].
Defined.

Lemma sample_pages_served (i : nat) (results : list value) :
  sample_pages !! i = Some results ->
  page_results sample_page (1 + Z.of_nat i) = Ok results.
Proof.
  destruct i as [|[|i]]; cbn [lookup list_lookup sample_pages].
  - intros [= <-]. reflexivity.
  - intros [= <-]. reflexivity.
  - discriminate.
Defined.

Lemma fetch_movies_first_occurrences_witness :
  exists out,
    fetch_movies sample_str sample_page 5 = Ok out /\
    Forall2 (fun m r => movie_element sample_str m (raw_id_of m) = Ok r)
      [sample_entry 7 "Seven"; sample_entry 8 "Eight"; sample_entry 9 "Nine"] out /\
    id_of <$> out = [7; 8; 9] /\
    NoDup (id_of <$> out).
Proof.
  destruct (fetch_movies_first_occurrences sample_str sample_page 5 sample_pages)
    as (out & Hout & Hall & Hids & Hnd & _).
  - exact sample_pages_served.
  - right. split; [cbn; lia|]. eexists. reflexivity.
  - repeat constructor; eexists; reflexivity.
  - repeat constructor; eexists; reflexivity.
  - exists out. split; [exact Hout|]. split; [exact Hall|].
    split; [exact Hids | exact Hnd].
Defined.

(** The extraction of the sample pages: three records, the titles of the
    first entries. *)
Example sample_extraction_values :
  let listing := fetch_movies sample_str sample_page 5 in
  (length <$> match listing with Ok l => Some l | Raise _ => None end) = Some 3%nat /\
  field_of listing 0 "title" = Some (VStr "Seven") /\
  field_of listing 1 "title" = Some (VStr "Eight") /\
  field_of listing 2 "title" = Some (VStr "Nine").
Proof. cbn zeta. repeat split; vm_compute; reflexivity. Qed.

Lemma handler_reports_static_destination_witness :
  statusCode sample_run.1 = 200 /\
  exists (n : nat) (written : put_request),
    body sample_run.1
    = Success n "s3://2025tmdbmoviedata/movies_data_enriched.csv" /\
    sample_run.2 = [written] /\
    Bucket written = "2025tmdbmoviedata"%string /\
    Key written = "daily_outputs/movies_data_2026-11-03.csv"%string /\
    "s3://2025tmdbmoviedata/movies_data_enriched.csv"%string
    <> "s3://" +:+ Bucket written +:+ "/" +:+ Key written.
Proof.
  assert (H200 : statusCode sample_run.1 = 200) by (vm_compute; reflexivity).
  split; [exact H200|].
  destruct (handler_reports_static_destination
              sample_float_of_str sample_str sample_page sample_detail
              sample_config "2026-11-03" sample_csv sample_put H200)
    as (n & written & Hbody & Hputs & Hbucket & Hkey & _ & Hne).
  exists n, written. split; [exact Hbody|]. split; [exact Hputs|].
  split; [exact Hbucket|]. split; [exact Hkey | exact (Hne eq_refl)].
Defined.

(** C10, counterexample: with [S3_FILE_NAME] set to the day's dated key the
    run succeeds and the reported destination is the address of the object
    written. *)
Lemma handler_destination_is_written_address :
  S3_FILE_NAME sample_config_dated = "daily_outputs/movies_data_2026-11-03.csv"%string /\
  statusCode sample_run_dated.1 = 200 /\
  exists (n : nat) (written : put_request),
    body sample_run_dated.1
    = Success n "s3://2025tmdbmoviedata/daily_outputs/movies_data_2026-11-03.csv" /\
    sample_run_dated.2 = [written] /\
    "s3://2025tmdbmoviedata/daily_outputs/movies_data_2026-11-03.csv"%string
    = "s3://" +:+ Bucket written +:+ "/" +:+ Key written.
Proof.
  split; [reflexivity|]. split; [vm_compute; reflexivity|].
  exists 3%nat,
    {| Bucket := "2025tmdbmoviedata";
       Key := "daily_outputs/movies_data_2026-11-03.csv";
       Body := "movie_id,title" |}.
  split; [vm_compute; reflexivity|]. split; [vm_compute; reflexivity | reflexivity].
Qed.

(** ** Requests with retries *)

Section RequestProps.

Variable py_str : value -> string.
Variable urlopen : string -> nat -> attempt_outcome.
Variable sleep : float -> result unit.

Local Abbreviation loop := (request_loop py_str urlopen sleep).
Local Abbreviation request := (make_api_request py_str urlopen sleep).

(** [k] retryable failures in a row, each followed by a sleep that returns,
    take the loop [k] iterations further. *)
Lemma request_loop_retries (url : string) (retries : Z) (backoff : float) (k : nat) :
  forall (todo attempt : nat) (tr : request_trace) (ts : list float),
    (forall i, (i < k)%nat ->
       exists code, urlopen url (attempt + i) = HTTPError code /\ retryable code = true) ->
    mapM (sleep_time backoff) (seq attempt k) = Ok ts ->
    Forall (fun t => sleep t = Ok tt) ts ->
    loop url retries backoff (k + todo) attempt tr
    = loop url retries backoff todo (attempt + k)
        {| requests_sent := requests_sent tr + k; slept := slept tr ++ ts |}.
Proof.
  induction k as [|k IH]; intros todo attempt tr ts Hfail Hts Hsleep.
  - cbn in Hts. apply Ok_inj in Hts as <-.
    rewrite !Nat.add_0_r, app_nil_r. by destruct tr.
  - cbn [seq mapM] in Hts. apply rbind_ok in Hts as (t & Ht & Hts).
    apply rbind_ok in Hts as (ts' & Hts' & Hts). apply Ok_inj in Hts as <-.
    apply Forall_cons in Hsleep as [Hsleep Hsleep'].
    destruct (Hfail 0%nat) as (code & Hcode & Hretry); [lia|].
    rewrite Nat.add_0_r in Hcode.
    cbn [Nat.add request_loop]. rewrite Hcode, Hretry, Ht. cbn [rbind].
    rewrite Hsleep. cbn [rbind requests_sent slept].
    rewrite (IH todo (S attempt) _ ts'); [| |exact Hts'|exact Hsleep'].
    + cbn [requests_sent slept]. rewrite <- app_assoc. cbn [app].
      replace (S attempt + k)%nat with (attempt + S k)%nat by lia.
      replace (S (requests_sent tr) + k)%nat with (requests_sent tr + S k)%nat by lia.
      reflexivity.
    + intros i Hi. destruct (Hfail (S i)) as (c & Hc & Hr); [lia|].
      exists c. split; [|exact Hr]. rewrite <- Hc. f_equal. lia.
Qed.

(** X1: when the first [k] requests fail with a retryable status and the
    next request, still within the [retries] budget, ends otherwise, that
    request decides: its JSON is returned, or its error is raised at once;
    [k + 1] requests were sent and the loop slept [backoff * 2^i] after the
    [i]-th failure. *)
Theorem make_api_request_decided (url : string) (retries : Z) (backoff : float)
    (k : nat) (ts : list float) :
  (k < Z.to_nat retries)%nat ->
  (forall i, (i < k)%nat ->
     exists code, urlopen url i = HTTPError code /\ retryable code = true) ->
  (forall code, urlopen url k = HTTPError code -> retryable code = false) ->
  mapM (sleep_time backoff) (seq 0 k) = Ok ts ->
  Forall (fun t => sleep t = Ok tt) ts ->
  request url retries backoff
  = (match urlopen url k with
     | Responded json => Ok json
     | HTTPError code => Raise (HTTPFailure code)
     | Errored e => Raise e
     end,
     {| requests_sent := S k; slept := ts |}).
Proof.
  intros Hk Hfail Hlast Hts Hsleep. unfold make_api_request.
  replace (Z.to_nat retries) with (k + S (Z.to_nat retries - S k))%nat by lia.
  rewrite (request_loop_retries url retries backoff k _ 0 _ ts);
    [|exact Hfail|exact Hts|exact Hsleep].
  cbn [request_loop requests_sent slept Nat.add app].
  destruct (urlopen url k) as [json|code|e] eqn:E; [reflexivity| |reflexivity].
  by rewrite (Hlast code eq_refl).
Qed.

(** X2: when every request of the budget fails with a retryable status, the
    function raises its own failure naming the URL and the number of
    attempts, after [retries] requests and as many sleeps: it also sleeps
    after the last failure.  With a budget of 0 or less it raises without a
    request. *)
Theorem make_api_request_exhausted (url : string) (retries : Z) (backoff : float)
    (ts : list float) :
  (forall i, (i < Z.to_nat retries)%nat ->
     exists code, urlopen url i = HTTPError code /\ retryable code = true) ->
  mapM (sleep_time backoff) (seq 0 (Z.to_nat retries)) = Ok ts ->
  Forall (fun t => sleep t = Ok tt) ts ->
  request url retries backoff
  = (Raise (Failure (exhausted_message py_str url retries)),
     {| requests_sent := Z.to_nat retries; slept := ts |}).
Proof.
  intros Hfail Hts Hsleep. unfold make_api_request.
  rewrite <- (Nat.add_0_r (Z.to_nat retries)) at 1.
  rewrite (request_loop_retries url retries backoff _ _ 0 _ ts);
    [reflexivity|exact Hfail|exact Hts|exact Hsleep].
Qed.

Lemma request_loop_trace (url : string) (retries : Z) (backoff : float) :
  forall (todo attempt : nat) (tr : request_trace),
    let out := loop url retries backoff todo attempt tr in
    exists n ts,
      requests_sent out.2 = (requests_sent tr + n)%nat /\
      slept out.2 = slept tr ++ ts /\
      (n <= todo)%nat /\
      (length ts <= n)%nat /\
      mapM (sleep_time backoff) (seq attempt (length ts)) = Ok ts /\
      Forall (fun t => sleep t = Ok tt) ts /\
      (is_ok out.1 -> n = S (length ts)).
Proof.
  induction todo as [|todo IH]; intros attempt tr; cbn zeta.
  - exists 0%nat, []. cbn. rewrite Nat.add_0_r, app_nil_r.
    repeat split; try done; try (by intros [? ?]).
  - cbn [request_loop requests_sent slept].
    destruct (urlopen url attempt) as [json|code|e].
    + exists 1%nat, []. cbn. rewrite app_nil_r. repeat split; try lia; done.
    + destruct (retryable code).
      * destruct (sleep_time backoff attempt) as [t|e] eqn:Ht; cbn [rbind].
        -- destruct (sleep t) as [[]|e] eqn:Hs; cbn [rbind].
           ++ specialize (IH (S attempt)
                {| requests_sent := S (requests_sent tr); slept := slept tr ++ [t] |}).
              cbn zeta in IH. destruct IH as (n & ts & Hn & Hts & Hle & Hlen & Hmap & Hall & Hok).
              cbn [requests_sent slept] in Hn, Hts.
              exists (S n), (t :: ts). rewrite Hn, Hts, <- app_assoc.
              cbn [length seq mapM]. rewrite Ht, Hmap. cbn [rbind].
              repeat split; try lia; try done.
              ** by constructor.
              ** intros H. by rewrite (Hok H).
           ++ exists 1%nat, []. cbn. rewrite app_nil_r.
              repeat split; try lia; try done; try (by intros [? ?]).
        -- exists 1%nat, []. cbn. rewrite app_nil_r.
           repeat split; try lia; try done; try (by intros [? ?]).
      * exists 1%nat, []. cbn. rewrite app_nil_r.
        repeat split; try lia; try done; try (by intros [? ?]).
    + exists 1%nat, []. cbn. rewrite app_nil_r.
      repeat split; try lia; try done; try (by intros [? ?]).
Qed.

(** X3: whatever the server does, a call sends at most [retries] requests,
    sleeps at most once per request, the [i]-th sleep lasting
    [backoff * 2^i]; a call that returns a response slept exactly once
    less than it sent requests. *)
Theorem make_api_request_bounded (url : string) (retries : Z) (backoff : float) :
  let out := request url retries backoff in
  (requests_sent out.2 <= Z.to_nat retries)%nat /\
  (length (slept out.2) <= requests_sent out.2)%nat /\
  mapM (sleep_time backoff) (seq 0 (length (slept out.2))) = Ok (slept out.2) /\
  (is_ok out.1 -> requests_sent out.2 = S (length (slept out.2))).
Proof.
  cbn zeta. unfold make_api_request.
  destruct (request_loop_trace url retries backoff (Z.to_nat retries) 0
              {| requests_sent := 0; slept := [] |})
    as (n & ts & Hn & Hts & Hle & Hlen & Hmap & _ & Hok).
  cbn [requests_sent slept Nat.add app] in Hn, Hts.
  rewrite Hn, Hts. repeat split; try lia; try done.
Qed.

End RequestProps.

Lemma make_api_request_decided_witness :
  make_api_request sample_str sample_urlopen sample_sleep "u" 3 0.5
  = (Ok (VDict [("results", VList [])]),
     {| requests_sent := 3; slept := [0.5; 1]%float |}).
Proof.
  apply (make_api_request_decided sample_str sample_urlopen sample_sleep
           "u" 3 0.5 2 [0.5; 1]%float).
  - cbn. lia.
  - intros i Hi. exists 503. destruct i as [|[|i]]; [done|done|lia].
  - discriminate.
  - vm_compute. reflexivity.
  - by repeat constructor.
Defined.

Lemma make_api_request_exhausted_witness :
  make_api_request sample_str sample_overloaded sample_sleep "u" 3 0.5
  = (Raise (Failure (exhausted_message sample_str "u" 3)),
     {| requests_sent := 3; slept := [0.5; 1; 2]%float |}).
Proof.
  apply (make_api_request_exhausted sample_str sample_overloaded sample_sleep
           "u" 3 0.5 [0.5; 1; 2]%float).
  - intros i _. by exists 429.
  - vm_compute. reflexivity.
  - by repeat constructor.
Defined.

(** ** Extraction: invariants and failures *)

Section ExtractionProps.

Variable py_str : value -> string.
Variable api_page : Z -> result value.

Local Abbreviation scan := (scan_results py_str).
Local Abbreviation pages_from := (fetch_pages py_str api_page).
Local Abbreviation fetch_all := (fetch_movies py_str api_page).

Lemma movie_element_schema (movie : value) (movie_id : Z) (r : record) :
  movie_element py_str movie movie_id = Ok r ->
  r !! "movie_id" = Some (VInt movie_id) /\ dom r = listing_keys.
Proof.
  unfold movie_element. intros H. inv_ok. split.
  - by repeat (rewrite lookup_insert_ne by done); rewrite lookup_insert_eq.
  - rewrite !dom_insert_L, dom_empty_L. reflexivity.
Qed.

Lemma listing_ok_snoc (l : list record) (seen : gset Z) (r : record) (z : Z) :
  listing_ok l seen -> z ∉ seen ->
  r !! "movie_id" = Some (VInt z) -> dom r = listing_keys ->
  listing_ok (l ++ [r]) ({[z]} ∪ seen).
Proof.
  intros (Hall & Hnd & Hseen) Hz Hid Hdom.
  assert (Hidr : movie_id_of r = Ok z) by (by apply movie_id_of_lookup).
  assert (Hidof : id_of r = z) by (unfold id_of; by rewrite Hidr).
  split; [|split].
  - apply Forall_app. split; [exact Hall|]. repeat constructor; [exact Hdom|].
    by exists z.
  - rewrite fmap_app. apply NoDup_app. split; [exact Hnd|]. split.
    + intros k Hk. cbn. rewrite list_elem_of_singleton. intros ->.
      apply Hz, Hseen. by rewrite <- Hidof.
    + cbn. apply NoDup_singleton.
  - intros k. rewrite fmap_app, elem_of_app. cbn.
    rewrite list_elem_of_singleton, elem_of_union, elem_of_singleton.
    intros [Hk| ->]; [right; by apply Hseen | left; exact Hidof].
Qed.

Lemma listing_ok_seen (l : list record) (seen seen' : gset Z) :
  listing_ok l seen -> seen ⊆ seen' -> listing_ok l seen'.
Proof.
  intros (Hall & Hnd & Hseen) Hsub. repeat split; [exact Hall | exact Hnd|].
  intros k Hk. apply Hsub, Hseen, Hk.
Qed.

(** The inner loop keeps the listing well-formed, whether or not it ends
    with an exception. *)
Lemma scan_results_inv (results : list value) :
  forall st, listing_ok (movies_list st) (movie_ids_seen st) ->
    listing_ok (movies_list (scan results st).1) (movie_ids_seen (scan results st).1).
Proof.
  induction results as [|m results IH]; intros st Hst; [exact Hst|].
  cbn [scan_results].
  destruct (rbind _ _) as [z|e]; [|exact Hst].
  destruct (decide (z ∈ movie_ids_seen st)) as [Hin|Hnin]; [by apply IH|].
  destruct (movie_element py_str m z) as [r|e] eqn:Hr.
  - apply IH. cbn [movies_list movie_ids_seen].
    destruct (movie_element_schema _ _ _ Hr) as [Hid Hdom].
    by apply listing_ok_snoc.
  - cbn [fst movies_list movie_ids_seen].
    eapply listing_ok_seen; [exact Hst|]. apply union_subseteq_r.
Qed.

Lemma fetch_pages_inv (todo : nat) :
  forall page st out,
    listing_ok (movies_list st) (movie_ids_seen st) ->
    pages_from todo page st = Ok out ->
    exists seen, listing_ok out seen.
Proof.
  induction todo as [|todo IH]; intros page st out Hst H.
  - apply Ok_inj in H as <-. eauto.
  - cbn [fetch_pages] in H.
    destruct (rbind _ _) as [results|e].
    + pose proof (scan_results_inv results st Hst) as Hscan.
      destruct (scan results st) as [st' [e|]]; cbn [fst] in Hscan.
      * destruct (page =? 1); [discriminate H|]. apply Ok_inj in H as <-. eauto.
      * by eapply IH.
    + destruct (page =? 1); [discriminate H|]. apply Ok_inj in H as <-. eauto.
Qed.

Lemma fetch_movies_listing_ok (max_pages : Z) (out : list record) :
  fetch_all max_pages = Ok out -> exists seen, listing_ok out seen.
Proof.
  intros H. unfold fetch_movies in H.
  apply fetch_pages_inv in H; [exact H|].
  cbn. repeat split; [constructor | constructor | intros k Hk; by apply elem_of_nil in Hk].
Qed.

(** X4: whatever the API answers, a listing the extractor returns is
    well-formed: every record has exactly the eight listing keys, and no two
    records have the same [movie_id]. *)
Theorem fetch_movies_well_formed (max_pages : Z) (out : list record) :
  fetch_all max_pages = Ok out ->
  Forall (fun r => dom r = listing_keys) out /\
  NoDup ((fun r : record => r !! "movie_id") <$> out).
Proof.
  intros H. unfold fetch_movies in H.
  apply fetch_pages_inv in H as (seen & Hall & Hnd & _).
  - split; [eapply Forall_impl; [exact Hall|]; by intros r [Hr _]|].
    apply (NoDup_fmap_1 (fun o : option value =>
                           match o with Some (VInt z) => z | _ => 0 end)).
    rewrite <- list_fmap_compose.
    erewrite list_fmap_ext; [exact Hnd|].
    intros i r _. cbn. unfold id_of, movie_id_of, getitem.
    by destruct (r !! "movie_id") as [[]|].
  - cbn. repeat split; [constructor | constructor | intros k Hk; by apply elem_of_nil in Hk].
Qed.

(** From the second page on the loop returns, whatever happens. *)
Lemma fetch_pages_later_returns (todo : nat) :
  forall page st, 1 < page -> is_ok (pages_from todo page st).
Proof.
  induction todo as [|todo IH]; intros page st Hpage; [by eexists|].
  cbn [fetch_pages]. destruct (Z.eqb_spec page 1) as [->|_]; [lia|].
  destruct (rbind _ _) as [results|e]; [|by eexists].
  destruct (scan results st) as [st' [e|]]; [by eexists|].
  apply IH. lia.
Qed.

(** X5: the extraction raises exactly when at least one page is asked for
    and the first page fails: its request raises, its response has no
    iterable results, or one of its entries is malformed; the exception is
    that failure's.  A failure on a later page never raises. *)
Theorem fetch_movies_raises_iff (max_pages : Z) (e : exn) :
  fetch_all max_pages = Raise e <->
  0 < max_pages /\
  (page_results api_page 1 = Raise e \/
   exists results,
     page_results api_page 1 = Ok results /\
     (scan results {| movies_list := []; movie_ids_seen := ∅ |}).2 = Some e).
Proof.
  unfold fetch_movies, page_results.
  destruct (Z.to_nat max_pages) as [|todo] eqn:Htodo; cbn [fetch_pages].
  - split; [discriminate|]. intros [Hpos _]. lia.
  - cbn [Z.eqb Pos.eqb].
    destruct (rbind _ _) as [results|e'].
    + destruct (scan results _) as [st' [e'|]] eqn:Hscan; cbn [snd].
      * split.
        -- intros [= ->]. split; [lia|]. right. exists results. by rewrite Hscan.
        -- intros [_ [H|(r & Hr & H)]]; [discriminate H|].
           apply Ok_inj in Hr as <-. rewrite Hscan in H. by injection H as ->.
      * split.
        -- intros H. destruct (fetch_pages_later_returns todo 2 st') as [out Hout]; [lia|].
           change (1 + 1) with 2 in H. rewrite Hout in H. discriminate H.
        -- intros [_ [H|(r & Hr & H)]]; [discriminate H|].
           apply Ok_inj in Hr as <-. rewrite Hscan in H. discriminate H.
    + split.
      * intros [= ->]. split; [lia | by left].
      * intros [_ [H|(r & Hr & _)]]; [by injection H as -> | discriminate Hr].
Qed.

End ExtractionProps.

Lemma sample_extraction_returns :
  is_ok (fetch_movies sample_str sample_page 5).
Proof.
  assert (H : match fetch_movies sample_str sample_page 5 with
              | Ok _ => true
              | Raise _ => false
              end = true) by (vm_compute; reflexivity).
  destruct (fetch_movies _ _ _) as [out|e]; [by exists out | discriminate H].
Defined.

Lemma fetch_movies_well_formed_witness :
  exists out,
    fetch_movies sample_str sample_page 5 = Ok out /\
    Forall (fun r => dom r = listing_keys) out /\
    NoDup ((fun r : record => r !! "movie_id") <$> out).
Proof.
  destruct sample_extraction_returns as [out E].
  exists out. split; [exact E|].
  exact (fetch_movies_well_formed sample_str sample_page 5 out E).
Defined.

(** ** Enrichment: errors, schema and composition *)

Section EnrichmentProps.

Variable py_str : value -> string.
Variable api_page : Z -> result value.
Variable api_detail : Z -> result value.

Local Abbreviation fetch := (fetch_movie_details py_str api_detail).
Local Abbreviation enrich := (enrich_movie_data_parallel py_str api_detail).

Lemma enrich_bad_workers (movies : list record) (max_details : option Z)
    (max_workers : Z) :
  Forall has_id movies -> max_workers <= 0 ->
  enrich movies max_details max_workers = Raise ValueError.
Proof.
  intros Hall Hw. unfold enrich_movie_data_parallel.
  rewrite unique_by_id_spec by exact Hall. cbn [rbind].
  set (sel := movies_to_process max_details (first_by id_of movies)).
  assert (Hsel : Forall has_id sel).
  { apply Forall_forall. intros m Hm. rewrite Forall_forall in Hall.
    apply Hall, (first_by_sublist id_of).
    eapply elem_of_prefix; [exact Hm | apply movies_to_process_prefix]. }
  destruct (mapM_total _ _ Hsel) as [ids Hids]. rewrite Hids. cbn [rbind].
  by destruct (Z.leb_spec max_workers 0); [|lia].
Qed.

Lemma unique_from_missing_key (seen : gset Z) (pre rest : list record)
    (m : record) :
  Forall has_id pre -> m !! "movie_id" = None ->
  unique_from seen (pre ++ m :: rest) = Raise (KeyError "movie_id").
Proof.
  intros Hpre Hm. revert seen.
  induction Hpre as [|x pre [z Hz] _ IH]; intros seen; cbn [app unique_from].
  - unfold movie_id_of, getitem. by rewrite Hm.
  - rewrite Hz. cbn [rbind]. destruct (decide (z ∈ seen)); [apply IH|].
    by rewrite IH.
Qed.

(** X6: on records whose [movie_id], where present, is an int, the
    enrichment returns exactly when every record has the key and the worker
    count is positive.  With identifiers on all records and a worker count of
    0 or less it raises [ValueError], also on an empty input; the first
    record without the key raises [KeyError]. *)
Theorem enrich_returns_iff (movies : list record) (max_details : option Z)
    (max_workers : Z) :
  (Forall (fun m => forall v, m !! "movie_id" = Some v -> exists z, v = VInt z)
     movies ->
   (is_ok (enrich movies max_details max_workers) <->
    Forall (fun m => is_Some (m !! "movie_id")) movies /\ 0 < max_workers)) /\
  (Forall has_id movies -> max_workers <= 0 ->
   enrich movies max_details max_workers = Raise ValueError) /\
  (forall pre m rest, movies = pre ++ m :: rest ->
   Forall has_id pre -> m !! "movie_id" = None ->
   enrich movies max_details max_workers = Raise (KeyError "movie_id")).
Proof.
  split; [|split].
  - intros Hint. split.
    + intros [out H]. destruct (enrich_inv _ _ _ _ _ _ H) as [Hall Hw].
      split; [|exact Hw]. eapply Forall_impl; [exact Hall|].
      intros m [z Hz]. unfold movie_id_of, getitem in Hz.
      by destruct (m !! "movie_id").
    + intros [Hall Hw]. eexists. apply enrich_spec; [|exact Hw].
      apply Forall_forall. intros m Hm. rewrite Forall_forall in Hall, Hint.
      destruct (Hall m Hm) as [v Hv]. destruct (Hint m Hm v Hv) as [z ->].
      exists z. unfold movie_id_of, getitem. by rewrite Hv.
  - apply enrich_bad_workers.
  - intros pre m rest -> Hpre Hm. unfold enrich_movie_data_parallel, unique_by_id.
    by rewrite unique_from_missing_key.
Qed.

(** X7: the record returned for a movie always carries the requested
    identifier; it has the fourteen detail keys when the request and the
    construction succeed, and is the stub with the identifier alone when
    either fails.  The function itself never raises. *)
Theorem fetch_movie_details_schema (movie_id : Z) :
  fetch movie_id !! "movie_id" = Some (VInt movie_id) /\
  match (response <- api_detail movie_id ;;
         detail_record py_str movie_id response) with
  | Ok detail => fetch movie_id = detail /\ dom detail = detail_keys
  | Raise _ => fetch movie_id = {["movie_id" := VInt movie_id]}
  end.
Proof.
  split; [apply fetch_movie_details_id|].
  unfold fetch_movie_details.
  destruct (rbind _ _) as [detail|e] eqn:E; [|reflexivity].
  split; [reflexivity|].
  apply rbind_ok in E as (response & _ & E).
  unfold detail_record in E. inv_ok.
  rewrite !dom_insert_L, dom_empty_L. reflexivity.
Qed.

(** X8: a listing returned by the extractor goes through the enrichment
    without loss: with a positive worker count the enrichment returns, its
    own deduplication removes nothing, and the output is the join of the
    selected listings, in the extractor's order. *)
Theorem enrich_after_fetch (max_pages : Z) (listing : list record)
    (max_details : option Z) (max_workers : Z) :
  fetch_movies py_str api_page max_pages = Ok listing ->
  0 < max_workers ->
  unique_by_id listing = Ok listing /\
  enrich listing max_details max_workers
  = Ok (merged_with_detail py_str api_detail
          <$> movies_to_process max_details listing) /\
  (max_details = None \/ max_details = Some 0 ->
   exists out, enrich listing max_details max_workers = Ok out /\
               id_of <$> out = id_of <$> listing).
Proof.
  intros Hfetch Hw.
  destruct (fetch_movies_listing_ok _ _ _ _ Hfetch) as (seen & Hall & Hnd & _).
  assert (Hids : Forall has_id listing).
  { eapply Forall_impl; [exact Hall|]. by intros r [_ Hr]. }
  assert (Hsame : first_by id_of listing = listing) by (by apply first_by_idemp).
  split; [by rewrite unique_by_id_spec, Hsame|].
  assert (Henrich : enrich listing max_details max_workers
                    = Ok (merged_with_detail py_str api_detail
                            <$> movies_to_process max_details listing)).
  { rewrite enrich_spec by assumption. by rewrite Hsame. }
  split; [exact Henrich|].
  intros Hmd. eexists. split; [exact Henrich|].
  assert (Hall' : movies_to_process max_details listing = listing)
    by (by destruct Hmd as [-> | ->]).
  rewrite Hall', <- list_fmap_compose. apply list_fmap_ext. intros _ m _.
  unfold compose, id_of.
  by rewrite (movie_id_of_same _ _ (merged_with_detail_id py_str api_detail m)).
Qed.

End EnrichmentProps.

Lemma enrich_after_fetch_witness :
  exists listing,
    fetch_movies sample_str sample_page 5 = Ok listing /\
    0 < 5 /\
    unique_by_id listing = Ok listing /\
    enrich_movie_data_parallel sample_str sample_detail listing (Some 50) 5
    = Ok (merged_with_detail sample_str sample_detail
            <$> movies_to_process (Some 50) listing).
Proof.
  destruct sample_extraction_returns as [listing Hfetch].
  exists listing. split; [exact Hfetch|]. split; [lia|].
  destruct (enrich_after_fetch sample_str sample_page sample_detail 5 listing
              (Some 50) 5 Hfetch) as (Hu & He & _); [lia|].
  split; [exact Hu | exact He].
Defined.

(** ** Cleaning: further properties *)

Lemma fill_defaults_lookup_default (m : record) (k : string) (d : value) :
  (k, d) ∈ default_table -> fill_defaults m !! k = Some (default d (m !! k)).
Proof.
  intros Hk. unfold fill_defaults. cbn zeta. rewrite !setdefault_lookup.
  destruct (m !! k) as [v|]; [reflexivity|]. cbn [default from_option].
  unfold default_table in Hk.
  repeat (apply elem_of_cons in Hk as [[= -> ->]|Hk];
          [repeat (first [rewrite decide_True by reflexivity
                         | rewrite decide_False by discriminate]); reflexivity|]).
  by apply elem_of_nil in Hk.
Qed.

Lemma default_table_keys (k : string) (d : value) :
  (k, d) ∈ default_table -> (k ∉ derived_keys) /\ (k ∉ numerical_features).
Proof.
  intros Hk. unfold default_table in Hk.
  repeat (apply elem_of_cons in Hk as [[= -> ->]|Hk];
          [split; by apply (bool_decide_unpack _)|]).
  by apply elem_of_nil in Hk.
Qed.

Lemma py_sub_numbers (a b r : value) :
  py_sub a b = Ok r -> is_number a /\ is_number b /\ is_number r.
Proof.
  unfold py_sub, is_number. intros H.
  apply rbind_ok in H as (x & Hx & H). apply rbind_ok in H as (y & Hy & H).
  split; [by exists x|]. split; [by exists y|].
  destruct x, y; inv_ok; by eexists.
Qed.

Lemma py_lt_number (v : value) (k : Z) (b : bool) :
  py_lt v k = Ok b -> is_number v.
Proof.
  unfold py_lt, is_number. intros H. apply rbind_ok in H as (x & Hx & _).
  by exists x.
Qed.

Section CleaningProps.

Variable float_of_str : string -> option float.

Local Abbreviation stats_of := (calculate_statistics float_of_str).
Local Abbreviation clean := (clean_transform_data float_of_str).

(** The identifiers of the output are those of the cleaned first
    occurrences. *)
Lemma clean_output_ids (movies out : list record) :
  clean movies = Ok out -> id_of <$> out = id_of <$> first_by id_of movies.
Proof.
  intros H. destruct (decide (movies = [])) as [->|Hne].
  { by apply clean_nil_inv in H as ->. }
  destruct (clean_transform_data_inv _ _ _ H Hne) as (stats & _ & _ & Hall).
  clear -Hall. induction Hall as [|m c l l' Hc _ IH]; [reflexivity|].
  rewrite !fmap_cons, IH. f_equal. unfold id_of.
  destruct (clean_movie_fields _ _ _ Hc) as (_ & Hid & _).
  by rewrite (movie_id_of_same _ _ Hid).
Qed.

(** X9: the identifiers of the cleaning's output are the identifiers of its
    input in order of first occurrence; on an input without repeated
    identifier, as the enrichment delivers it, the final deduplication
    removes nothing: same identifiers, same order, same length. *)
Theorem clean_dedup_is_noop (movies out : list record) :
  clean movies = Ok out ->
  id_of <$> out = first_occurrences (id_of <$> movies) /\
  (NoDup (id_of <$> movies) ->
   id_of <$> out = id_of <$> movies /\ length out = length movies).
Proof.
  intros H. pose proof (clean_output_ids _ _ H) as Hids.
  split; [by rewrite Hids, first_by_fmap|].
  intros Hnd. rewrite (first_by_idemp id_of movies Hnd) in Hids.
  split; [exact Hids|].
  by rewrite <- (length_fmap id_of out), Hids, length_fmap.
Qed.

(** X10: the cleaning touches seventeen keys only: every other key of a
    record (the identifier, the title, the poster, the status, ...) has in
    the output the value, or the absence, it had in the input. *)
Theorem clean_frame (movies out : list record) :
  clean movies = Ok out ->
  Forall2
    (fun movie cleaned =>
       forall k, k ∉ numerical_features -> k ∉ defaulted_keys -> k ∉ derived_keys ->
                 cleaned !! k = movie !! k)
    (first_by id_of movies) out.
Proof.
  intros H. destruct (decide (movies = [])) as [->|Hne].
  { apply clean_nil_inv in H as ->. constructor. }
  destruct (clean_transform_data_inv _ _ _ H Hne) as (stats & _ & _ & Hall).
  eapply Forall2_impl; [exact Hall|]. cbn beta. intros movie cleaned Hc k Hn Hd Hder.
  destruct (clean_movie_inv _ _ _ Hc)
    as (m1 & budget & revenue & popularity & profit & roi & category
        & Hfold & _ & _ & _ & _ & _ & _ & ->).
  rewrite cleaned_record_lookup_other, fill_defaults_lookup_other by assumption.
  rewrite (impute_all_ok _ _ _ _ Hfold). by rewrite decide_False.
Qed.

(** X11: the seven text defaults fill absent keys only: a key the input
    record lacks gets its literal default, and a key the input record has
    keeps its value, also when that value is [None]. *)
Theorem clean_text_defaults (movies out : list record) :
  clean movies = Ok out ->
  Forall2
    (fun movie cleaned =>
       forall k d, (k, d) ∈ default_table ->
         (movie !! k = None -> cleaned !! k = Some d) /\
         (forall v, movie !! k = Some v -> cleaned !! k = Some v))
    (first_by id_of movies) out.
Proof.
  intros H. destruct (decide (movies = [])) as [->|Hne].
  { apply clean_nil_inv in H as ->. constructor. }
  destruct (clean_transform_data_inv _ _ _ H Hne) as (stats & _ & _ & Hall).
  eapply Forall2_impl; [exact Hall|]. cbn beta. intros movie cleaned Hc k d Hk.
  destruct (clean_movie_inv _ _ _ Hc)
    as (m1 & budget & revenue & popularity & profit & roi & category
        & Hfold & _ & _ & _ & _ & _ & _ & ->).
  destruct (default_table_keys k d Hk) as [Hder Hnum].
  rewrite cleaned_record_lookup_other by exact Hder.
  rewrite (fill_defaults_lookup_default m1 k d Hk).
  rewrite (impute_all_ok _ _ _ _ Hfold), decide_False by exact Hnum.
  split; [by intros -> | by intros v ->].
Qed.

(** X12: every output record has a profit, the difference of its revenue
    and its budget after imputation, computed as Python subtracts: exactly
    on ints, in binary64 as soon as one operand is a float. *)
Theorem clean_profit (movies out : list record) :
  clean movies = Ok out ->
  Forall
    (fun cleaned =>
       exists budget revenue profit,
         cleaned !! "budget" = Some budget /\
         cleaned !! "revenue" = Some revenue /\
         cleaned !! "profit" = Some profit /\
         py_sub revenue budget = Ok profit /\
         (forall r b, revenue = VInt r -> budget = VInt b -> profit = VInt (r - b)))
    out.
Proof.
  intros H. destruct (decide (movies = [])) as [->|Hne].
  { apply clean_nil_inv in H as ->. constructor. }
  destruct (clean_transform_data_inv _ _ _ H Hne) as (stats & _ & _ & Hall).
  apply Forall_forall. intros cleaned Hin.
  apply list_elem_of_lookup in Hin as [i Hi].
  destruct (Forall2_lookup_r _ _ _ _ _ Hall Hi) as (m & _ & Hc).
  destruct (clean_movie_fields _ _ _ Hc)
    as (_ & _ & _ & _ & _ & budget & revenue & popularity & profit & roi & category
        & Hb & Hr & _ & Hprofit & Hprofit' & _).
  exists budget, revenue, profit. repeat (split; [assumption|]).
  intros r b -> ->. cbn in Hprofit. by apply Ok_inj in Hprofit.
Qed.

(** X13: every output record has a popularity category decided by its
    popularity after imputation: "Low" below 100, "Medium" from 100 up to but
    not including 500, "High" when it is below neither (100 is "Medium", 500
    is "High", and so is a NaN, which is below nothing). *)
Theorem clean_popularity_category (movies out : list record) :
  clean movies = Ok out ->
  Forall
    (fun cleaned =>
       exists popularity category,
         cleaned !! "popularity" = Some popularity /\
         cleaned !! "popularity_category" = Some (VStr category) /\
         (py_lt popularity 100 = Ok true -> category = "Low"%string) /\
         (py_lt popularity 100 = Ok false -> py_lt popularity 500 = Ok true ->
          category = "Medium"%string) /\
         (py_lt popularity 100 = Ok false -> py_lt popularity 500 = Ok false ->
          category = "High"%string))
    out /\
  py_lt (VInt 100) 100 = Ok false /\ py_lt (VInt 500) 500 = Ok false /\
  py_lt (VFloat nan) 100 = Ok false /\ py_lt (VFloat nan) 500 = Ok false.
Proof.
  intros H. split; [|by repeat split].
  destruct (decide (movies = [])) as [->|Hne].
  { apply clean_nil_inv in H as ->. constructor. }
  destruct (clean_transform_data_inv _ _ _ H Hne) as (stats & _ & _ & Hall).
  apply Forall_forall. intros cleaned Hin.
  apply list_elem_of_lookup in Hin as [i Hi].
  destruct (Forall2_lookup_r _ _ _ _ _ Hall Hi) as (m & _ & Hc).
  destruct (clean_movie_fields _ _ _ Hc)
    as (_ & _ & _ & _ & _ & budget & revenue & popularity & profit & roi & category
        & _ & _ & Hp & _ & _ & _ & _ & Hcat & Hcat').
  unfold category_value in Hcat.
  destruct (py_lt popularity 100) as [low|e] eqn:Hlow; [|discriminate Hcat].
  cbn [rbind] in Hcat. destruct low.
  - apply Ok_inj in Hcat as <-. exists popularity, "Low"%string.
    split; [exact Hp|]. split; [exact Hcat'|].
    split; [done|]. split; intros; congruence.
  - destruct (py_lt popularity 500) as [medium|e] eqn:Hmed; [|discriminate Hcat].
    cbn [rbind] in Hcat. apply Ok_inj in Hcat as <-.
    exists popularity. eexists. split; [exact Hp|]. split; [exact Hcat'|].
    destruct medium.
    + split; [intros; congruence|]. split; [done|]. intros; congruence.
    + split; [intros; congruence|]. split; [intros; congruence | done].
Qed.

End CleaningProps.

Section CleaningProps2.

Variable float_of_str : string -> option float.

Local Abbreviation stats_of := (calculate_statistics float_of_str).
Local Abbreviation clean := (clean_transform_data float_of_str).

(** X14: the cleaning leaves no gap: in every output record each of the six
    numeric features is present and not [None], the seven defaulted keys and
    the four derived keys are present, and budget, revenue and popularity
    are numbers. *)
Theorem clean_output_complete (movies out : list record) :
  clean movies = Ok out ->
  Forall
    (fun cleaned =>
       (forall f, f ∈ numerical_features ->
          exists v, cleaned !! f = Some v /\ is_none v = false) /\
       (forall k, k ∈ defaulted_keys ++ derived_keys -> is_Some (cleaned !! k)) /\
       exists budget revenue popularity,
         cleaned !! "budget" = Some budget /\ is_number budget /\
         cleaned !! "revenue" = Some revenue /\ is_number revenue /\
         cleaned !! "popularity" = Some popularity /\ is_number popularity)
    out.
Proof.
  intros H. destruct (decide (movies = [])) as [->|Hne].
  { apply clean_nil_inv in H as ->. constructor. }
  destruct (clean_transform_data_inv _ _ _ H Hne) as (stats & Hstats & _ & Hall).
  assert (Hgood : forall f, f ∈ numerical_features ->
                    exists s, stats !! f = Some s /\ is_none s = false).
  { intros f Hf. destruct (calculate_statistics_ok _ _ _ Hstats f Hf) as (vals & _ & Hs).
    eexists. split; [exact Hs | apply feature_stat_not_none]. }
  apply Forall_forall. intros cleaned Hin.
  apply list_elem_of_lookup in Hin as [i Hi].
  destruct (Forall2_lookup_r _ _ _ _ _ Hall Hi) as (m & _ & Hc).
  destruct (clean_movie_is_cleaned _ _ _ Hgood Hc)
    as (Hnum & Hdef & Hry
        & budget & revenue & popularity & profit & roi & category
        & Hb & Hr & Hp & Hprofit & Hprofit' & Hroi & Hroi' & Hcat & Hcat').
  split; [exact Hnum|]. split.
  - intros k Hk. apply elem_of_app in Hk as [Hk|Hk]; [by apply Hdef|].
    unfold derived_keys in Hk.
    repeat (apply elem_of_cons in Hk as [->|Hk]; [by eexists|]).
    by apply elem_of_nil in Hk.
  - exists budget, revenue, popularity.
    destruct (py_sub_numbers _ _ _ Hprofit) as (Hnr & Hnb & _).
    repeat (split; [assumption|]).
    unfold category_value in Hcat.
    destruct (py_lt popularity 100) as [low|e] eqn:Hlow; [|discriminate Hcat].
    by eapply py_lt_number.
Qed.

(** X15: [calculate_statistics] returns exactly when [float()] accepts
    every present, non-null value of the six features; what it returns has
    the six feature names as its keys, each with the int 0 or a float. *)
Theorem calculate_statistics_returns_iff (movies : list record) :
  (is_ok (stats_of movies) <->
   forall f, f ∈ numerical_features -> is_ok (observed float_of_str f movies)) /\
  (forall stats, stats_of movies = Ok stats ->
     dom stats = list_to_set numerical_features /\
     forall f, f ∈ numerical_features ->
       exists s, stats !! f = Some s /\ (s = VInt 0 \/ exists x, s = VFloat x)).
Proof.
  split.
  - split.
    + intros [stats Hs] f Hf.
      destruct (calculate_statistics_ok _ _ _ Hs f Hf) as (vals & Hvals & _).
      by exists vals.
    + apply calculate_statistics_total.
  - intros stats Hs. split.
    + unfold calculate_statistics in Hs. apply rbind_ok in Hs as (values & _ & Hs).
      apply Ok_inj in Hs as <-. apply set_eq. intros k.
      rewrite elem_of_dom, elem_of_list_to_set.
      rewrite (foldl_insert_lookup float_of_str
                 (fun g => feature_stat g (default [] (values !! g)))).
      destruct (decide (k ∈ numerical_features)) as [Hk|Hk].
      * split; [done | by eexists].
      * rewrite lookup_empty. split; [by intros [? ?] | done].
    + intros f Hf.
      destruct (calculate_statistics_ok _ _ _ Hs f Hf) as (vals & _ & Hstat).
      eexists. split; [exact Hstat|]. unfold feature_stat.
      destruct vals; [by left|]. destruct (uses_median f); right; by eexists.
Qed.

End CleaningProps2.

Lemma sample_ids_distinct : NoDup (id_of <$> sample_enriched_movies).
Proof. apply (bool_decide_unpack _). vm_compute. exact I. Defined.

Lemma clean_dedup_is_noop_witness :
  exists out,
    clean_transform_data sample_float_of_str sample_enriched_movies = Ok out /\
    id_of <$> out = id_of <$> sample_enriched_movies /\
    length out = 5%nat.
Proof.
  destruct sample_cleaning_returns as [out Hout]. exists out.
  split; [exact Hout|].
  exact (proj2 (clean_dedup_is_noop sample_float_of_str sample_enriched_movies
                  out Hout) sample_ids_distinct).
Defined.

Lemma clean_frame_witness :
  exists out,
    clean_transform_data sample_float_of_str sample_enriched_movies = Ok out /\
    Forall2
      (fun movie cleaned =>
         forall k, k ∉ numerical_features -> k ∉ defaulted_keys -> k ∉ derived_keys ->
                   cleaned !! k = movie !! k)
      (first_by id_of sample_enriched_movies) out.
Proof.
  destruct sample_cleaning_returns as [out Hout]. exists out.
  split; [exact Hout|].
  exact (clean_frame sample_float_of_str sample_enriched_movies out Hout).
Defined.

Lemma clean_text_defaults_witness :
  exists out,
    clean_transform_data sample_float_of_str sample_enriched_movies = Ok out /\
    Forall2
      (fun movie cleaned =>
         forall k d, (k, d) ∈ default_table ->
           (movie !! k = None -> cleaned !! k = Some d) /\
           (forall v, movie !! k = Some v -> cleaned !! k = Some v))
      (first_by id_of sample_enriched_movies) out.
Proof.
  destruct sample_cleaning_returns as [out Hout]. exists out.
  split; [exact Hout|].
  exact (clean_text_defaults sample_float_of_str sample_enriched_movies out Hout).
Defined.

Lemma clean_profit_witness :
  exists out,
    clean_transform_data sample_float_of_str sample_enriched_movies = Ok out /\
    Forall
      (fun cleaned =>
         exists budget revenue profit,
           cleaned !! "budget" = Some budget /\
           cleaned !! "revenue" = Some revenue /\
           cleaned !! "profit" = Some profit /\
           py_sub revenue budget = Ok profit /\
           (forall r b, revenue = VInt r -> budget = VInt b -> profit = VInt (r - b)))
      out.
Proof.
  destruct sample_cleaning_returns as [out Hout]. exists out.
  split; [exact Hout|].
  exact (clean_profit sample_float_of_str sample_enriched_movies out Hout).
Defined.

Lemma clean_popularity_category_witness :
  exists out,
    clean_transform_data sample_float_of_str sample_enriched_movies = Ok out /\
    Forall
      (fun cleaned =>
         exists popularity category,
           cleaned !! "popularity" = Some popularity /\
           cleaned !! "popularity_category" = Some (VStr category) /\
           (py_lt popularity 100 = Ok true -> category = "Low"%string) /\
           (py_lt popularity 100 = Ok false -> py_lt popularity 500 = Ok true ->
            category = "Medium"%string) /\
           (py_lt popularity 100 = Ok false -> py_lt popularity 500 = Ok false ->
            category = "High"%string))
      out.
Proof.
  destruct sample_cleaning_returns as [out Hout]. exists out.
  split; [exact Hout|].
  exact (proj1 (clean_popularity_category sample_float_of_str
                  sample_enriched_movies out Hout)).
Defined.

Lemma clean_output_complete_witness :
  exists out,
    clean_transform_data sample_float_of_str sample_enriched_movies = Ok out /\
    Forall
      (fun cleaned =>
         (forall f, f ∈ numerical_features ->
            exists v, cleaned !! f = Some v /\ is_none v = false) /\
         (forall k, k ∈ defaulted_keys ++ derived_keys -> is_Some (cleaned !! k)) /\
         exists budget revenue popularity,
           cleaned !! "budget" = Some budget /\ is_number budget /\
           cleaned !! "revenue" = Some revenue /\ is_number revenue /\
           cleaned !! "popularity" = Some popularity /\ is_number popularity)
      out.
Proof.
  destruct sample_cleaning_returns as [out Hout]. exists out.
  split; [exact Hout|].
  exact (clean_output_complete sample_float_of_str sample_enriched_movies out Hout).
Defined.

(** ** The handler: failures and the count *)

Section HandlerProps.

Variable float_of_str : string -> option float.
Variable py_str : value -> string.
Variable api_page : Z -> result value.
Variable api_detail : Z -> result value.
Variable cfg : config.
Variable date_suffix : string.
Variable csv_text : list record -> string.
Variable put_object : put_request -> result unit.

Local Abbreviation handler :=
  (lambda_handler float_of_str py_str api_page api_detail cfg date_suffix
     csv_text put_object).
Local Abbreviation pipeline :=
  (run_pipeline float_of_str py_str api_page api_detail cfg date_suffix
     csv_text put_object).
Local Abbreviation listing_of := (fetch_movies py_str api_page (MAX_PAGES cfg)).
Local Abbreviation failed :=
  (fun e => ({| statusCode := 500; body := Failed e |}, @nil put_request)).

Lemma handler_of_failure (e : exn) : pipeline = Raise e -> handler = failed e.
Proof. unfold lambda_handler. by intros ->. Qed.

(** X16: the handler turns every failure into a 500 response that carries
    the error and reports no object written: a failing extraction, an empty
    listing (which is the failure "Failed to fetch movies"), a worker count
    of 0 or less ([ValueError] from the enrichment), and a failing
    [put_object]. *)
Theorem handler_failure_modes :
  (forall e, listing_of = Raise e -> handler = failed e) /\
  (listing_of = Ok [] -> handler = failed (Failure "Failed to fetch movies")) /\
  (forall listing, listing_of = Ok listing -> listing <> [] ->
     MAX_WORKERS cfg <= 0 -> handler = failed ValueError) /\
  (forall listing enriched cleaned e,
     listing_of = Ok listing -> listing <> [] ->
     enrich_movie_data_parallel py_str api_detail listing
       (Some (MAX_DETAILS cfg)) (MAX_WORKERS cfg) = Ok enriched ->
     clean_transform_data float_of_str enriched = Ok cleaned ->
     put_object {| Bucket := S3_BUCKET_NAME cfg;
                   Key := file_key date_suffix;
                   Body := csv_text cleaned |} = Raise e ->
     handler = failed e).
Proof.
  split; [|split; [|split]].
  - intros e He. apply handler_of_failure. unfold run_pipeline. by rewrite He.
  - intros He. apply handler_of_failure. unfold run_pipeline. by rewrite He.
  - intros listing Hl Hne Hw. apply handler_of_failure. unfold run_pipeline.
    rewrite Hl. cbn [rbind]. destruct listing as [|m listing]; [done|].
    rewrite enrich_bad_workers; [reflexivity | | exact Hw].
    destruct (fetch_movies_listing_ok _ _ _ _ Hl) as (seen & Hall & _).
    eapply Forall_impl; [exact Hall|]. by intros r [_ Hr].
  - intros listing enriched cleaned e Hl Hne Hen Hcl Hput.
    apply handler_of_failure. unfold run_pipeline.
    rewrite Hl. cbn [rbind]. destruct listing as [|m listing]; [done|].
    rewrite Hen. cbn [rbind]. rewrite Hcl. cbn [rbind].
    unfold upload_to_s3. by rewrite Hput.
Qed.


End HandlerProps.


(** ** Release years *)

Lemma digit_range (c : ascii) (d : Z) : digit c = Some d -> 0 <= d <= 9.
Proof.
  unfold digit. destruct (_ && _) eqn:E; [|discriminate].
  intros [= <-]. apply andb_prop in E. lia.
Qed.

Lemma digit_in_range (lo hi : Z) (c : ascii) (d : Z) :
  digit_in lo hi c = Some d -> lo <= d <= hi.
Proof.
  unfold digit_in. destruct (digit c) as [x|]; [|discriminate].
  destruct (_ && _) eqn:E; [|discriminate].
  intros [= <-]. apply andb_prop in E. lia.
Qed.

Lemma two_digits_range (lo1 hi1 lo2 hi2 : Z) (s r : string) (v : Z) :
  two_digits lo1 hi1 lo2 hi2 s = Some (v, r) ->
  10 * lo1 + lo2 <= v <= 10 * hi1 + hi2.
Proof.
  unfold two_digits. destruct s as [|a [|b s]]; try discriminate.
  destruct (digit_in lo1 hi1 a) as [x|] eqn:Ex; [|discriminate].
  destruct (digit_in lo2 hi2 b) as [y|] eqn:Ey; [|discriminate].
  intros [= <- _]. apply digit_in_range in Ex, Ey. lia.
Qed.

Lemma one_digit_range (lo hi : Z) (s r : string) (v : Z) :
  one_digit lo hi s = Some (v, r) -> lo <= v <= hi.
Proof.
  unfold one_digit. destruct s as [|a s]; [discriminate|].
  destruct (digit_in lo hi a) as [x|] eqn:Ex; [|discriminate].
  intros [= <- _]. by apply digit_in_range in Ex.
Qed.

Lemma space_digit_range (s r : string) (v : Z) :
  space_digit s = Some (v, r) -> 1 <= v <= 9.
Proof.
  unfold space_digit. destruct s as [|a s]; [discriminate|].
  destruct (Ascii.eqb a " "); [|discriminate]. apply one_digit_range.
Qed.

(** A match of a group comes from one of its alternatives. *)
Lemma first_alternative_inv {R : Type}
    (alts : list (string -> option (Z * string)))
    (k : Z -> string -> option R) (s : string) (res : R) :
  first_alternative alts k s = Some res ->
  exists alt v r, alt ∈ alts /\ alt s = Some (v, r) /\ k v r = Some res.
Proof.
  induction alts as [|alt alts IH]; cbn [first_alternative]; [discriminate|].
  intros H.
  assert (Hrest : first_alternative alts k s = Some res ->
                  exists alt' v r, alt' ∈ alt :: alts /\ alt' s = Some (v, r)
                                   /\ k v r = Some res).
  { intros H'. destruct (IH H') as (a & v & r & Ha & Hs & Hk).
    exists a, v, r. split; [by right | by split]. }
  destruct (alt s) as [[v r]|] eqn:Ealt; [|by apply Hrest].
  destruct (k v r) as [res'|] eqn:Ek; [|by apply Hrest].
  injection H as <-. exists alt, v, r. split; [by left | by split].
Qed.

Lemma expect_dash_inv {R : Type} (k : string -> option R) (s : string) (res : R) :
  expect_dash k s = Some res -> exists r, k r = Some res.
Proof.
  unfold expect_dash. destruct s as [|c r]; [discriminate|].
  destruct (Ascii.eqb c "-"); [|discriminate]. eauto.
Qed.

Lemma days_in_month_le (y m : Z) : days_in_month y m <= 31.
Proof.
  unfold days_in_month.
  destruct (m =? 2); [by destruct (is_leap y)|].
  by destruct (_ || _).
Qed.

(** What [strptime] accepts is a calendar date. *)
Lemma strptime_sound (s : string) (y m d : Z) :
  strptime s = Some (y, m, d) ->
  1 <= y <= 9999 /\ 1 <= m <= 12 /\ 1 <= d <= days_in_month y m.
Proof.
  unfold strptime. destruct (match_ymd s) as [[[[y' m'] d'] rest]|] eqn:E; [|discriminate].
  destruct (_ && _) eqn:Echeck; [|discriminate]. intros [= -> -> ->].
  apply andb_prop in Echeck as [Echeck Hd]. apply andb_prop in Echeck as [_ Hy].
  unfold match_ymd in E.
  destruct (four_digits s) as [[y0 r0]|] eqn:Ey; [|discriminate].
  apply expect_dash_inv in E as (r1 & E).
  apply first_alternative_inv in E as (malt & mv & r2 & Hmalt & Hm & E).
  apply expect_dash_inv in E as (r3 & E).
  apply first_alternative_inv in E as (dalt & dv & r4 & Hdalt & Hdv & E).
  injection E as -> -> -> ->.
  assert (Hy9 : y <= 9999).
  { unfold four_digits in Ey.
    destruct s as [|a [|b [|c [|e s]]]]; try discriminate.
    destruct (digit a) as [w|] eqn:Ea; [|discriminate].
    destruct (digit b) as [x|] eqn:Eb; [|discriminate].
    destruct (digit c) as [y1|] eqn:Ec; [|discriminate].
    destruct (digit e) as [z|] eqn:Ee; [|discriminate].
    injection Ey as <- _.
    apply digit_range in Ea, Eb, Ec, Ee. lia. }
  assert (Hmr : 1 <= m <= 12).
  { unfold month_alternatives in Hmalt.
    repeat (apply elem_of_cons in Hmalt as [->|Hmalt]);
      [apply two_digits_range in Hm | apply two_digits_range in Hm
      | apply one_digit_range in Hm | by apply elem_of_nil in Hmalt]; lia. }
  assert (Hdr : 1 <= d).
  { unfold day_alternatives in Hdalt.
    repeat (apply elem_of_cons in Hdalt as [->|Hdalt]);
      [apply two_digits_range in Hdv | apply two_digits_range in Hdv
      | apply two_digits_range in Hdv | apply one_digit_range in Hdv
      | apply space_digit_range in Hdv | by apply elem_of_nil in Hdalt]; lia. }
  lia.
Qed.

Section ReleaseYears.

Variable float_of_str : string -> option float.

(** X18: for every record whose release date is absent, not a string or an
    ASCII string, the [release_year] of its cleaned record is [None] or an
    int between 1 and 9999, the year of a date whose month and day exist in
    the calendar. *)
Theorem clean_release_year_range (movies out : list record) :
  clean_transform_data float_of_str movies = Ok out ->
  Forall2
    (fun movie cleaned =>
       ascii_date movie = true ->
       cleaned !! "release_year" = Some VNone \/
       exists s y m d,
         cleaned !! "release_date" = Some (VStr s) /\
         strptime s = Some (y, m, d) /\
         cleaned !! "release_year" = Some (VInt y) /\
         1 <= y <= 9999 /\ 1 <= m <= 12 /\ 1 <= d <= days_in_month y m /\
         days_in_month y m <= 31)
    (first_by id_of movies) out.
Proof.
  intros H. destruct (decide (movies = [])) as [->|Hne].
  { apply clean_nil_inv in H as ->. constructor. }
  destruct (clean_transform_data_inv _ _ _ H Hne) as (stats & _ & _ & Hall).
  eapply Forall2_impl; [exact Hall|]. cbn beta. intros movie cleaned Hc _.
  destruct (clean_movie_fields _ _ _ Hc) as (_ & _ & Hrd & Hry & _).
  rewrite Hry, Hrd. unfold year_of.
  destruct (movie !! "release_date") as [[| | | |s| |]|]; try by left.
  destruct (strptime s) as [[[y mo] d]|] eqn:Es; [|by left].
  right. exists s, y, mo, d.
  destruct (strptime_sound _ _ _ _ Es) as (Hy & Hm & Hd).
  repeat (split; [done|]). apply days_in_month_le.
Qed.

End ReleaseYears.

Lemma clean_release_year_range_witness :
  exists out,
    clean_transform_data sample_float_of_str sample_enriched_movies = Ok out /\
    Forall (fun movie => ascii_date movie = true)
      (first_by id_of sample_enriched_movies) /\
    Forall2
      (fun movie cleaned =>
         cleaned !! "release_year" = Some VNone \/
         exists s y m d,
           cleaned !! "release_date" = Some (VStr s) /\
           strptime s = Some (y, m, d) /\
           cleaned !! "release_year" = Some (VInt y) /\
           1 <= y <= 9999 /\ 1 <= m <= 12 /\ 1 <= d <= days_in_month y m /\
           days_in_month y m <= 31)
      (first_by id_of sample_enriched_movies) out.
Proof.
  destruct sample_cleaning_returns as [out Hout]. exists out.
  split; [exact Hout|]. split; [exact sample_dates_ascii|].
  apply (Forall2_discharge (fun movie => ascii_date movie = true));
    [exact sample_dates_ascii|].
  exact (clean_release_year_range sample_float_of_str sample_enriched_movies
           out Hout).
Defined.

(** ** The extraction over HTTP *)

Lemma fetch_pages_ext (py_str : value -> string) (api1 api2 : Z -> result value) :
  (forall page, api1 page = api2 page) ->
  forall todo page st,
    fetch_pages py_str api1 todo page st = fetch_pages py_str api2 todo page st.
Proof.
  intros Hext. induction todo as [|todo IH]; intros page st; [reflexivity|].
  cbn [fetch_pages]. rewrite Hext.
  destruct (rbind _ _) as [results|e]; [|reflexivity].
  destruct (scan_results py_str results st) as [st' [e|]]; [reflexivity|].
  apply IH.
Qed.

Section ExtractionOverHTTP.

Variable py_str : value -> string.
Variable urlopen : string -> nat -> attempt_outcome.
Variable sleep : float -> result unit.
Variable API_KEY : string.

Local Abbreviation url_of := (listing_url py_str API_KEY).
Local Abbreviation page_over_http := (request_page py_str urlopen sleep API_KEY).

(** X19: with the defaults of [make_api_request] (three attempts), up to
    two retryable failures per page are invisible to the extraction: it
    returns what it returns on the responses that finally come.  Three
    retryable failures on the first page make it raise the failure "after 3
    attempts". *)
Theorem fetch_movies_over_http (max_pages : Z) :
  (forall t, sleep t = Ok tt) ->
  (forall responses : Z -> value,
     (forall page, exists k,
        (k <= 2)%nat /\
        (forall i, (i < k)%nat ->
           exists code, urlopen (url_of page) i = HTTPError code /\
                        retryable code = true) /\
        urlopen (url_of page) k = Responded (responses page)) ->
     fetch_movies py_str page_over_http max_pages
     = fetch_movies py_str (fun page => Ok (responses page)) max_pages) /\
  ((forall i, (i < 3)%nat ->
      exists code, urlopen (url_of 1) i = HTTPError code /\ retryable code = true) ->
   0 < max_pages ->
   fetch_movies py_str page_over_http max_pages
   = Raise (Failure (exhausted_message py_str (url_of 1) 3))).
Proof.
  intros Hsleep. split.
  - intros responses Hresp. unfold fetch_movies. apply fetch_pages_ext.
    intros page. unfold request_page.
    destruct (Hresp page) as (k & Hk & Hfail & Hlast).
    assert (Hts : exists ts, mapM (sleep_time 0.5) (seq 0 k) = Ok ts).
    { destruct k as [|[|[|k]]]; [by eexists|by eexists|by eexists|lia]. }
    destruct Hts as [ts Hts].
    unfold make_api_request.
    replace (Z.to_nat 3) with (k + S (2 - k))%nat by lia.
    rewrite (request_loop_retries py_str urlopen sleep _ 3 0.5 k _ 0 _ ts);
      [|exact Hfail|exact Hts|apply Forall_forall; intros t _; apply Hsleep].
    cbn [request_loop Nat.add]. by rewrite Hlast.
  - intros Hfail Hpos. unfold fetch_movies.
    destruct (Z.to_nat max_pages) as [|todo] eqn:Htodo; [lia|].
    cbn [fetch_pages]. unfold request_page.
    unfold make_api_request. change (Z.to_nat 3) with (3 + 0)%nat.
    rewrite (request_loop_retries py_str urlopen sleep _ 3 0.5 3 _ 0 _
               [0.5; 1; 2]%float);
      [reflexivity | exact Hfail | reflexivity |].
    apply Forall_forall. intros t _. apply Hsleep.
Qed.

End ExtractionOverHTTP.

Lemma fetch_movies_over_http_witness :
  fetch_movies sample_str
    (request_page sample_str sample_urlopen sample_sleep "key") 5
  = fetch_movies sample_str (fun page => Ok (VDict [("results", VList [])])) 5.
Proof.
  apply (proj1 (fetch_movies_over_http sample_str sample_urlopen sample_sleep
                  "key" 5 (fun t => eq_refl))
           (fun page => VDict [("results", VList [])])).
  intros page. exists 2%nat. split; [lia|]. split; [|reflexivity].
  intros i Hi. exists 503. destruct i as [|[|i]]; [done|done|lia].
Defined.
